(** * Shallow embedding of vendrive/xray-grpc (src/main.go)

    Go strings are byte sequences; they are modelled as Stdlib [string]
    (a list of 8-bit [ascii] characters).  Go runtime panics are values of
    [panic_value]; the Go functions that can panic return [gresult]. *)

From Stdlib Require Import ZArith Ascii String List Lia.
From stdpp Require Import base gmap list strings pretty.
Import ListNotations.

Local Open Scope Z_scope.

(** ** Go runtime: panics *)

(** The [boundsCode] of Go's [runtime.boundsError]: [BoundsIndex] is
    [s[x]] with [x] out of range, [BoundsSliceAlen] is [s[:x]] with
    [x] outside [0, len(s)]. *)
Inductive bounds_code := BoundsIndex | BoundsSliceAlen.

(** A Go panic value: a runtime bounds error [boundsError{x, y, code}]
    (the offending index and the length), or any other panic value. *)
Inductive panic_value :=
| BoundsError (code : bounds_code) (x y : Z)
| PanicMsg (msg : string).

(** The text [fmt.Sprintf("%v", p)] of a panic value: for a
    [runtime.boundsError] its [Error()] method (the index is a signed
    [int], so a negative one gets the short format); [PanicMsg msg] is a
    panic value that prints as [msg]. *)
Definition panic_text (p : panic_value) : string :=
  match p with
  | BoundsError BoundsIndex x y =>
      if x <? 0 then "runtime error: index out of range [" +:+ pretty x +:+ "]"
      else "runtime error: index out of range [" +:+ pretty x +:+ "] with length " +:+ pretty y
  | BoundsError BoundsSliceAlen x y =>
      if x <? 0 then "runtime error: slice bounds out of range [:" +:+ pretty x +:+ "]"
      else "runtime error: slice bounds out of range [:" +:+ pretty x +:+ "] with length "
             +:+ pretty y
  | PanicMsg msg => msg
  end.

(** Result of a Go function without effects: it returns or panics. *)
Inductive gresult (A : Type) :=
| GOk (a : A)
| GPanic (p : panic_value).
Arguments GOk {A} a.
Arguments GPanic {A} p.

(** ** Package strings (Go standard library) *)
Module GoStrings.

(** [s[i:]] and [s[:i]] on in-range indices. *)
Fixpoint str_drop (n : nat) (s : string) : string :=
  match n, s with
  | O, _ => s
  | S n', String _ s' => str_drop n' s'
  | S _, EmptyString => EmptyString
  end.

Fixpoint str_take (n : nat) (s : string) : string :=
  match n, s with
  | O, _ => EmptyString
  | S n', String c s' => String c (str_take n' s')
  | S _, EmptyString => EmptyString
  end.

(** [s[:i]] with Go's bounds check: the compiler checks
    [uint(i) <= uint(len(s))], a failure panics with
    [boundsError{x: i, y: len(s), code: boundsSliceAlen}]. *)
Definition slice_to (s : string) (i : Z) : gresult string :=
  if (i <? 0) || (Z.of_nat (String.length s) <? i)
  then GPanic (BoundsError BoundsSliceAlen i (Z.of_nat (String.length s)))
  else GOk (str_take (Z.to_nat i) s).

(** [strings.IndexByte(s, c)]: index of the first byte [c], or -1. *)
Fixpoint IndexByte (s : string) (c : ascii) : Z :=
  match s with
  | EmptyString => -1
  | String b s' =>
      if Ascii.eqb b c then 0
      else let r := IndexByte s' c in if r <? 0 then -1 else r + 1
  end.

(** [strings.HasPrefix(s, prefix)]. *)
Fixpoint HasPrefix (s prefix : string) {struct prefix} : bool :=
  match prefix, s with
  | EmptyString, _ => true
  | String p prefix', String c s' => Ascii.eqb p c && HasPrefix s' prefix'
  | String _ _, EmptyString => false
  end.

(** [strings.Index(s, substr)]: index of the first instance of [substr]
    in [s], or -1.  The Go code picks among several search algorithms;
    they all return the first match, which is what this scan computes. *)
Fixpoint Index (s substr : string) : Z :=
  if HasPrefix s substr then 0
  else match s with
       | EmptyString => -1
       | String _ s' => let r := Index s' substr in if r <? 0 then -1 else r + 1
       end.

(** The loop of [strings.Count] for a non-empty [substr]:
    [for { i := Index(s, substr); if i == -1 { return n }; n++;
           s = s[i+len(substr):] }].
    Every round drops at least one byte, so [length s + 1] rounds of
    fuel always suffice (lemma [count_loop_fuel] below). *)
Fixpoint count_loop (fuel : nat) (s substr : string) (n : nat) : nat :=
  match fuel with
  | O => n
  | S fuel' =>
      let i := Index s substr in
      if i =? -1 then n
      else count_loop fuel' (str_drop (Z.to_nat i + String.length substr) s)
             substr (S n)
  end.

(** [strings.Count(s, substr)].  For an empty [substr] Go returns
    [utf8.RuneCountInString(s) + 1]; that branch is modelled with one
    rune per byte (exact on ASCII) and is never reached from this
    repository, whose only [substr] is ["." + namespace]. *)
Definition Count (s substr : string) : nat :=
  if (String.length substr =? 0)%nat then (String.length s + 1)%nat
  else count_loop (S (String.length s)) s substr 0.

(** The replacement loop of [strings.Replace]:
    [for i := 0; i < n; i++ { j := start; j += Index(s[start:], old);
       b.WriteString(s[start:j]); b.WriteString(new);
       start = j + len(old) }; b.WriteString(s[start:])].
    The Builder [b] is the string built from left to right.  (The
    [len(old) == 0] branch of the loop, stepping one rune, is not reached
    from this repository.) *)
Fixpoint replace_loop (s old new : string) (start : nat) (n : nat) : string :=
  match n with
  | O => str_drop start s
  | S n' =>
      let j := (start + Z.to_nat (Index (str_drop start s) old))%nat in
      (str_take (j - start) (str_drop start s) ++ new
        ++ replace_loop s old new (j + String.length old) n')%string
  end.

(** [strings.Replace(s, old, new, n)]. *)
Definition Replace (s old new : string) (n : Z) : string :=
  if String.eqb old new || (n =? 0) then s
  else
    let m := Count s old in
    if (m =? 0)%nat then s
    else
      let n := if (n <? 0) || (Z.of_nat m <? n) then m else Z.to_nat n in
      replace_loop s old new 0 n.

(** [strings.ReplaceAll(s, old, new) = Replace(s, old, new, -1)]. *)
Definition ReplaceAll (s old new : string) : string := Replace s old new (-1).

End GoStrings.

Import GoStrings.

(** ** GetDefaultHostFromTargetFunc (src/main.go:152-157) *)

(** [fmt.Sprintf(".%s", namespace)]. *)
Definition dot_namespace (namespace : string) : string := String "." namespace.

(** [func(target string) string { withoutPort := target[:strings.IndexByte(target, ':')];
      return strings.ReplaceAll(withoutPort, fmt.Sprintf(".%s", namespace), "") }] *)
Definition GetDefaultHostFromTargetFunc (namespace : string) : string -> gresult string :=
  fun target =>
    match slice_to target (IndexByte target ":") with
    | GPanic p => GPanic p
    | GOk withoutPort => GOk (ReplaceAll withoutPort (dot_namespace namespace) "")
    end.

(** ** Left-to-right deletion of a pattern

    [deletes pat s r]: [r] is [s] after scanning it from the left and,
    at every position where [pat] starts, deleting that instance of
    [pat] and resuming right after it; other bytes are kept. *)
Inductive deletes (pat : string) : string -> string -> Prop :=
| del_end : deletes pat EmptyString EmptyString
| del_hit s r : deletes pat s r -> deletes pat (pat ++ s)%string r
| del_keep c s r :
    HasPrefix (String c s) pat = false ->
    deletes pat s r -> deletes pat (String c s) (String c r).

(** ** Results of stateful Go code *)

(** A run of Go code from a state of type [S]: it returns a value, it
    panics (the state reached is kept, so that deferred calls can run),
    or it blocks forever on a mutex that is already held. *)
Inductive outcome (S A : Type) :=
| Ret (a : A) (s : S)
| Panic (p : panic_value) (s : S)
| Stuck (s : S).
Arguments Ret {S A} a s.
Arguments Panic {S A} p s.
Arguments Stuck {S A} s.

(** A Go function without effects, run against any state. *)
Definition pure_fn {S A B : Type} (f : A -> gresult B) : A -> S -> outcome S B :=
  fun a st => match f a with GOk b => Ret b st | GPanic p => Panic p st end.

(** ** Values crossing the interceptors *)

(** A Go [error]; [nil] is [None] in [option error]. *)
Inductive error := Err (msg : string).

(** A Go [interface{}] value: [nil] or some value. *)
Inductive iface := INil | IVal (v : string).

(** [metadata.MD] is [map[string][]string]. *)
Abbreviation MD := (gmap string (list string)).

(** [xray.TraceIDHeaderKey]. *)
Definition TraceIDHeaderKey : string := "x-amzn-trace-id".

(** The package constants (src/main.go:19-22). *)
Definition GrpcMethod : string := "POST".
Definition CustomUserAgent : string := "Vendrive-gRPC-XRAY-Interceptor".

(** [xray.RequestData] (the fields this package writes). *)
Record RequestData := mkRequestData {
  Method : string;
  URL : string;
  ClientIP : string;
  UserAgent : string
}.

Definition empty_request : RequestData := mkRequestData "" "" "" "".

(** [grpc.UnaryServerInfo]. *)
Record UnaryServerInfo := mkUnaryServerInfo { FullMethod : string }.

(** [grpc.ClientConn], through its [Target()]. *)
Record ClientConn := mkClientConn { Target : string }.

(** [context.Context], through the values the interceptors read:
    the X-Ray segment ([xray.GetSegment], a reference into the segment
    store), the incoming metadata ([metadata.FromIncomingContext]), the
    pairs added by [metadata.AppendToOutgoingContext], and the peer
    address ([peer.FromContext] then [p.Addr.String()]). *)
Record Context := mkContext {
  ctx_segment : option nat;
  ctx_incoming : option MD;
  ctx_outgoing : list (string * string);
  ctx_peer : option string
}.

Definition with_segment (ctx : Context) (seg : nat) : Context :=
  mkContext (Some seg) (ctx_incoming ctx) (ctx_outgoing ctx) (ctx_peer ctx).

(** [metadata.AppendToOutgoingContext(ctx, k, v)]. *)
Definition AppendToOutgoingContext (ctx : Context) (k v : string) : Context :=
  mkContext (ctx_segment ctx) (ctx_incoming ctx) (ctx_outgoing ctx ++ [(k, v)]) (ctx_peer ctx).

(** [xray.GetSegment(ctx)]. *)
Definition GetSegment (ctx : Context) : option nat := ctx_segment ctx.

(** [if len(name) > 200 { name = name[:200] }] in [BeginSegment] and
    [BeginSubsegment] of the X-Ray SDK. *)
Definition truncate_name (name : string) : string :=
  if (200 <? String.length name)%nat then str_take 200 name else name.

Section Interceptors.

(** [header.Header] and [header.FromString] of the X-Ray SDK. *)
Variable Header : Type.
Variable FromString : string -> Header.
(** The state of the code the interceptors wrap: handlers, invokers and
    [hostFromTarget].  That code may read the segments (it receives the
    context) but only the interceptors write their HTTP fields. *)
Variable E : Type.

(** [xray.Segment]: its name, its parent (subsegments), the header it
    continues, its [sync.Mutex], [GetHTTP().Request],
    [GetHTTP().GetResponse().Status] and the arguments of the [Close]
    calls made on it. *)
Record Segment := mkSegment {
  seg_name : string;
  seg_parent : option nat;
  seg_incoming : option Header;
  seg_locked : bool;
  seg_request : RequestData;
  seg_status : Z;
  seg_closes : list (option error)
}.

(** [seg.DownstreamHeader().String()] of segment [i] in the store. *)
Variable DownstreamHeaderString : list Segment -> nat -> string.

(** The shared store of segments (pointers are indices) and the state
    of the wrapped code. *)
Record World := mkWorld { segs : list Segment; ext : E }.

Definition M (A : Type) : Type := World -> outcome World A.

#[global] Instance M_ret : MRet M := fun A a w => Ret a w.
#[global] Instance M_bind : MBind M := fun A B k m w =>
  match m w with
  | Ret a w' => k a w'
  | Panic p w' => Panic p w'
  | Stuck w' => Stuck w'
  end.

(** The runtime error raised by a nil pointer dereference. *)
Definition nil_deref : panic_value :=
  PanicMsg "runtime error: invalid memory address or nil pointer dereference".

Definition modify_seg (i : nat) (f : Segment -> Segment) : M unit := fun w =>
  match segs w !! i with
  | Some s => Ret tt (mkWorld (<[i := f s]> (segs w)) (ext w))
  | None => Panic nil_deref w
  end.

(** [seg.Lock()] and [seg.Unlock()]; unlocking an unlocked mutex is a
    fatal error of the Go runtime. *)
Definition Lock (i : nat) : M unit := fun w =>
  match segs w !! i with
  | Some s =>
      if seg_locked s then Stuck w
      else Ret tt (mkWorld (<[i := mkSegment (seg_name s) (seg_parent s) (seg_incoming s)
                                     true (seg_request s) (seg_status s) (seg_closes s)]> (segs w)) (ext w))
  | None => Panic nil_deref w
  end.

Definition Unlock (i : nat) : M unit := fun w =>
  match segs w !! i with
  | Some s =>
      if seg_locked s
      then Ret tt (mkWorld (<[i := mkSegment (seg_name s) (seg_parent s) (seg_incoming s)
                                     false (seg_request s) (seg_status s) (seg_closes s)]> (segs w)) (ext w))
      else Panic (PanicMsg "sync: unlock of unlocked mutex") w
  | None => Panic nil_deref w
  end.

(** [seg.GetHTTP().Request = r]. *)
Definition set_request (i : nat) (r : RequestData) : M unit :=
  modify_seg i (fun s => mkSegment (seg_name s) (seg_parent s) (seg_incoming s)
                           (seg_locked s) r (seg_status s) (seg_closes s)).

(** [seg.GetHTTP().GetRequest().Method = m]. *)
Definition set_method (i : nat) (m : string) : M unit :=
  modify_seg i (fun s =>
    let r := seg_request s in
    mkSegment (seg_name s) (seg_parent s) (seg_incoming s) (seg_locked s)
      (mkRequestData m (URL r) (ClientIP r) (UserAgent r)) (seg_status s) (seg_closes s)).

(** [seg.GetHTTP().GetResponse().Status = code]. *)
Definition set_status (i : nat) (code : Z) : M unit :=
  modify_seg i (fun s => mkSegment (seg_name s) (seg_parent s) (seg_incoming s)
                           (seg_locked s) (seg_request s) code (seg_closes s)).

(** [seg.Close(err)]: under the segment's lock, end it (adding [err] to
    it when not nil), then send it. *)
Definition Close (i : nat) (err : option error) : M unit :=
  Lock i;;
  modify_seg i (fun s => mkSegment (seg_name s) (seg_parent s) (seg_incoming s)
                           (seg_locked s) (seg_request s) (seg_status s)
                           (seg_closes s ++ [err]));;
  Unlock i.

(** A new segment in the store; its reference is returned. *)
Definition alloc_segment (s : Segment) : M nat := fun w =>
  Ret (length (segs w)) (mkWorld (segs w ++ [s]) (ext w)).

(** Running wrapped code: it sees the segments and changes its own state. *)
Definition call_ext {A : Type} (f : list Segment -> E -> outcome E A) : M A := fun w =>
  match f (segs w) (ext w) with
  | Ret a e => Ret a (mkWorld (segs w) e)
  | Panic p e => Panic p (mkWorld (segs w) e)
  | Stuck e => Stuck (mkWorld (segs w) e)
  end.

(** [defer f()] around [body]: [f] runs when [body] returns and when
    it panics; the panic then goes on. *)
Definition with_defer {A : Type} (f : M unit) (body : M A) : M A := fun w =>
  match body w with
  | Ret a w' => (f;; mret a) w'
  | Panic p w' =>
      match f w' with
      | Ret _ w'' => Panic p w''
      | Panic p' w'' => Panic p' w''
      | Stuck w'' => Stuck w''
      end
  | Stuck w' => Stuck w'
  end.

(** [xray.NewSegmentFromHeader(ctx, name, nil, h)]: a new segment
    continuing [h], and a context carrying it. *)
Definition NewSegmentFromHeader (ctx : Context) (name : string) (h : Header)
  : M (Context * nat) :=
  seg ← alloc_segment (mkSegment (truncate_name name) None (Some h) false
                         empty_request 0 []);
  mret (with_segment ctx seg, seg).

(** [xray.BeginSubsegment(ctx, name)]: without a segment in [ctx] the
    SDK's context-missing strategy is called (by default it logs) and
    [(nil, nil)] is returned. *)
Definition BeginSubsegment (ctx : Context) (name : string) : M (option (Context * nat)) :=
  match GetSegment ctx with
  | None => mret None
  | Some parent =>
      seg ← alloc_segment (mkSegment (truncate_name name) (Some parent) None false
                             empty_request 0 []);
      mret (Some (with_segment ctx seg, seg))
  end.

(** The recover handler of [xray.Capture] turns a panic [p] into the
    error [ExceptionFormattingStrategy.Panicf("%v", p)] for the segment
    before panicking again: an error whose message is the panic's text
    (its type ["panic"] and stack trace are not modelled). *)
Definition panic_error (p : panic_value) : error := Err (panic_text p).

(** The deferred calls of [xray.Capture] around [fn] in subsegment
    [seg]: [seg.Close(err)] with [fn]'s error when it returns; when it
    panics, [seg.Close] with the panic turned into an error, then the
    panic goes on. *)
Definition capture_in (seg : nat) (body : M (option error)) : M (option error) := fun w =>
  match body w with
  | Ret err w' => (Close seg err;; mret err) w'
  | Panic p w' =>
      match Close seg (Some (panic_error p)) w' with
      | Ret _ w'' => Panic p w''
      | Panic p' w'' => Panic p' w''
      | Stuck w'' => Stuck w''
      end
  | Stuck w' => Stuck w'
  end.

(** The deferred calls of [xray.Capture] around [fn] when no subsegment
    was begun ([seg] is nil): when [fn] returns, the deferred close only
    reports the missing subsegment through the context-missing strategy
    (by default it logs); when [fn] panics, the recover handler reads
    [seg.ParentSegment] on the nil [seg], which panics with a nil
    pointer dereference in place of [fn]'s panic. *)
Definition capture_bare (body : M (option error)) : M (option error) := fun w =>
  match body w with
  | Ret err w' => Ret err w'
  | Panic _ w' => Panic nil_deref w'
  | Stuck w' => Stuck w'
  end.

(** [xray.Capture(ctx, name, fn)]: [fn] runs in a new subsegment;
    without a segment in [ctx], [fn(ctx)] runs without one. *)
Definition Capture (ctx : Context) (name : string) (fn : Context -> M (option error))
  : M (option error) :=
  b ← BeginSubsegment ctx name;
  match b with
  | None => capture_bare (fn ctx)
  | Some (c, seg) => capture_in seg (fn c)
  end.

(** [grpc.UnaryHandler] and [grpc.UnaryInvoker] (the reply is written
    through [resp], part of the wrapped code's state). *)
Definition UnaryHandler : Type :=
  Context -> iface -> list Segment -> E -> outcome E (iface * option error).
Definition UnaryInvoker : Type :=
  Context -> string -> iface -> iface -> ClientConn -> list Segment -> E -> outcome E (option error).

(** NewGrpcXrayUnaryClientInterceptor (src/main.go:38-82), applied to
    [hostFromTarget]: the interceptor run on one call. *)
Definition NewGrpcXrayUnaryClientInterceptor (hostFromTarget : string -> E -> outcome E string)
  (ctx : Context) (method : string) (req resp : iface) (cc : ClientConn)
  (invoker : UnaryInvoker) : M (option error) :=
  host ← call_ext (fun _ => hostFromTarget (Target cc));
  Capture ctx host (fun ctx =>
    match GetSegment ctx with
    | None => call_ext (invoker ctx method req resp cc)
    | Some seg =>
        Lock seg;;
        set_method seg GrpcMethod;;
        ctx ← (fun w => Ret (AppendToOutgoingContext ctx TraceIDHeaderKey
                               (DownstreamHeaderString (segs w) seg)) w);
        Unlock seg;;
        err ← call_ext (invoker ctx method req resp cc);
        Lock seg;;
        (match err with
         | Some _ => set_status seg 400
         | None => set_status seg 200
         end);;
        Unlock seg;;
        mret err
    end).

(** The trace string read from the incoming metadata (src/main.go:104-110). *)
Definition trace_string (md : MD) : string :=
  match md !! TraceIDHeaderKey with
  | Some traceHeaderValueList =>
      if (0 <? length traceHeaderValueList)%nat
      then nth 0 traceHeaderValueList EmptyString
      else EmptyString
  | None => EmptyString
  end.

(** NewGrpcXrayUnaryServerInterceptor (src/main.go:92-150), applied to
    the segment namer [sn] ([sn.Name]): the interceptor run on one call. *)
Definition NewGrpcXrayUnaryServerInterceptor (sn : string -> string)
  (ctx : Context) (req : iface) (info : UnaryServerInfo) (handler : UnaryHandler)
  : M (iface * option error) :=
  let name := sn "only NewFixedSegmentNamer is supported" in
  match ctx_incoming ctx with
  | None => mret (INil, Some (Err "unable to read metadata"))
  | Some md =>
      let traceHeader := FromString (trace_string md) in
      '(ctx, seg) ← NewSegmentFromHeader ctx name traceHeader;
      with_defer (Close seg None) (
        Lock seg;;
        let ClientIP := match ctx_peer ctx with Some addr => addr | None => EmptyString end in
        let reqData := mkRequestData GrpcMethod (FullMethod info) ClientIP CustomUserAgent in
        set_request seg reqData;;
        Unlock seg;;
        '(resp, err) ← call_ext (handler ctx req);
        Lock seg;;
        (match err with
         | Some _ => set_status seg 400
         | None => set_status seg 200
         end);;
        Unlock seg;;
        mret (resp, err))
  end.

End Interceptors.

Arguments mkSegment {Header} _ _ _ _ _ _ _.
Arguments seg_name {Header} _.
Arguments seg_parent {Header} _.
Arguments seg_incoming {Header} _.
Arguments seg_locked {Header} _.
Arguments seg_request {Header} _.
Arguments seg_status {Header} _.
Arguments seg_closes {Header} _.
Arguments mkWorld {Header E} _ _.
Arguments segs {Header E} _.
Arguments ext {Header E} _.
Arguments call_ext {Header E A} _ _.
Arguments NewGrpcXrayUnaryServerInterceptor {Header} FromString {E} _ _ _ _ _ _.
Arguments NewGrpcXrayUnaryClientInterceptor {Header E} DownstreamHeaderString _ _ _ _ _ _ _ _.

(** The state reached by a run, whatever its end. *)
Definition final_state {S A : Type} (o : outcome S A) : S :=
  match o with Ret _ s => s | Panic _ s => s | Stuck s => s end.

(** ** Concrete calls

    Headers are kept as their text ([FromString] the identity) and the
    wrapped code has no state of its own. *)
Definition id_header (s : string) : string := s.

Definition sample_trace : string :=
  "Root=1-5759e988-bd862e3fe1be46a994272793;Parent=53995c3f42cd8ad8;Sampled=1".

Definition sample_md : MD := <[TraceIDHeaderKey := [sample_trace]]> ∅.

Definition sample_server_ctx : Context :=
  mkContext None (Some sample_md) [] (Some "10.0.0.7:53412").

Definition bare_server_ctx : Context := mkContext None None [] None.

Definition sample_info : UnaryServerInfo := mkUnaryServerInfo "/orders.Orders/Get".

Definition empty_world : World string unit := mkWorld [] tt.

Definition svc_namer : string -> string := fun _ => "svc".

(** A handler failing with a partial reply. *)
Definition partial_reply_handler : UnaryHandler string unit :=
  fun _ _ _ e => Ret (IVal "partial", Some (Err "deadline exceeded")) e.

(** A handler failing with a nil reply. *)
Definition nil_reply_handler : UnaryHandler string unit :=
  fun _ _ _ e => Ret (INil, Some (Err "deadline exceeded")) e.

Definition root_segment : Segment string :=
  mkSegment "frontend" None None false empty_request 0 [].

Definition traced_world : World string unit := mkWorld [root_segment] tt.

Definition traced_client_ctx : Context := mkContext (Some 0%nat) None [] None.

Definition untraced_client_ctx : Context := mkContext None None [] None.

Definition svc_conn : ClientConn := mkClientConn "svc:443".

Definition sample_downstream : list (Segment string) -> nat -> string := fun _ _ => sample_trace.

Definition ok_invoker : UnaryInvoker string unit := fun _ _ _ _ _ _ e => Ret None e.

Definition identity_host : string -> unit -> outcome unit string := fun t e => Ret t e.

(** A handler that panics. *)
Definition panicking_handler : UnaryHandler string unit :=
  fun _ _ _ e => Panic (PanicMsg "handler failed") e.

(** A handler answering with its request, so that the call it receives shows. *)
Definition echo_handler : UnaryHandler string unit :=
  fun _ r _ e => Ret (r, None) e.

(** An invoker failing with an error. *)
Definition failing_invoker : UnaryInvoker string unit :=
  fun _ _ _ _ _ _ e => Ret (Some (Err "unavailable")) e.

(** A handler whose answer depends on its context: it fails (with a
    partial reply) when the call has a peer, and succeeds otherwise. *)
Definition peer_gated_handler : UnaryHandler string unit :=
  fun c _ _ e =>
    match ctx_peer c with
    | Some _ => Ret (IVal "partial", Some (Err "denied")) e
    | None => Ret (INil, None) e
    end.

(** A handler that panics only when the call has a peer. *)
Definition peer_gated_panic_handler : UnaryHandler string unit :=
  fun c _ _ e =>
    match ctx_peer c with
    | Some _ => Panic (PanicMsg "handler failed") e
    | None => Ret (INil, None) e
    end.

(** An invoker whose answer depends on the outgoing metadata: it fails
    when the call carries none. *)
Definition metadata_gated_invoker : UnaryInvoker string unit :=
  fun c _ _ _ _ _ e =>
    match ctx_outgoing c with
    | [] => Ret (Some (Err "no metadata")) e
    | _ :: _ => Ret None e
    end.

(** An invoker that panics only when the call carries outgoing metadata. *)
Definition metadata_gated_panic_invoker : UnaryInvoker string unit :=
  fun c _ _ _ _ _ e =>
    match ctx_outgoing c with
    | [] => Ret None e
    | _ :: _ => Panic (PanicMsg "connection reset") e
    end.

(** [s] with every byte [c] removed (reference for the empty namespace). *)
Fixpoint strip_byte (c : ascii) (s : string) : string :=
  match s with
  | EmptyString => EmptyString
  | String b s' => if Ascii.eqb b c then strip_byte c s' else String b (strip_byte c s')
  end.

(** ** Lemmas on the string functions *)
Section StringLemmas.

Variable pat : string.
Hypothesis pat_nonempty : pat <> EmptyString.

Lemma str_drop_nil (n : nat) : str_drop n EmptyString = EmptyString.
Proof. destruct n; reflexivity. Qed.

Lemma str_drop_drop (a b : nat) (s : string) :
  str_drop a (str_drop b s) = str_drop (b + a) s.
Proof.
  revert s; induction b as [|b IH]; intros s; [reflexivity|].
  destruct s; simpl; [rewrite !str_drop_nil; reflexivity | apply IH].
Qed.

Lemma str_drop_length (n : nat) (s : string) :
  String.length (str_drop n s) = (String.length s - n)%nat.
Proof.
  revert s; induction n as [|n IH]; intros s; destruct s; simpl; try lia.
  apply IH.
Qed.

Lemma str_length_app (a b : string) :
  String.length (a ++ b)%string = (String.length a + String.length b)%nat.
Proof. induction a; simpl; [reflexivity | rewrite IHa; reflexivity]. Qed.

Lemma HasPrefix_nil_nonempty : HasPrefix EmptyString pat = false.
Proof. destruct pat; [congruence | reflexivity]. Qed.

Lemma HasPrefix_app (p s : string) : HasPrefix (p ++ s)%string p = true.
Proof. induction p; simpl; [reflexivity|]. rewrite Ascii.eqb_refl; assumption. Qed.

Lemma HasPrefix_split (p s : string) :
  HasPrefix s p = true -> s = (p ++ str_drop (String.length p) s)%string.
Proof.
  revert s; induction p as [|a p IH]; intros s H; [reflexivity|].
  destruct s as [|c s]; simpl in H; [discriminate|].
  apply andb_prop in H as [H1 H2]. apply Ascii.eqb_eq in H1; subst c.
  transitivity (String a (p ++ str_drop (String.length p) s))%string;
    [f_equal; apply IH, H2 | reflexivity].
Qed.

Lemma HasPrefix_length (s p : string) :
  HasPrefix s p = true -> (String.length p <= String.length s)%nat.
Proof.
  intros H. rewrite (HasPrefix_split p s H), str_length_app. lia.
Qed.

Lemma Index_range (s : string) : Index s pat = -1 \/ 0 <= Index s pat.
Proof.
  induction s as [|c s IH]; simpl; destruct (HasPrefix _ pat); try lia.
  destruct (Index s pat <? 0) eqn:E; [left; reflexivity | right].
  apply Z.ltb_ge in E; lia.
Qed.

Lemma Index_none (s : string) :
  Index s pat = -1 -> forall k, HasPrefix (str_drop k s) pat = false.
Proof.
  induction s as [|c s IH]; intros H k.
  - rewrite str_drop_nil. apply HasPrefix_nil_nonempty.
  - simpl in H. destruct (HasPrefix (String c s) pat) eqn:Hp; [discriminate|].
    destruct k as [|k]; [exact Hp|]. simpl.
    destruct (Index_range s) as [E|E]; [apply IH, E|].
    rewrite (proj2 (Z.ltb_ge _ _) E) in H. lia.
Qed.

Lemma Index_some (s : string) :
  0 <= Index s pat ->
  HasPrefix (str_drop (Z.to_nat (Index s pat)) s) pat = true /\
  forall k, (k < Z.to_nat (Index s pat))%nat -> HasPrefix (str_drop k s) pat = false.
Proof.
  induction s as [|c s IH]; intros H; simpl in *.
  - destruct (HasPrefix EmptyString pat) eqn:Hp; [|lia].
    split; [exact Hp | intros; lia].
  - destruct (HasPrefix (String c s) pat) eqn:Hp.
    + split; [exact Hp | intros; lia].
    + destruct (Index_range s) as [E|E].
      * rewrite E in H. simpl in H. lia.
      * rewrite (proj2 (Z.ltb_ge _ _) E).
        destruct (IH E) as [IH1 IH2].
        replace (Z.to_nat (Index s pat + 1)) with (S (Z.to_nat (Index s pat))) by lia.
        split; [exact IH1|].
        intros [|k] Hk; [exact Hp|]. apply IH2; lia.
Qed.

Lemma deletes_no_match (s : string) :
  (forall k, HasPrefix (str_drop k s) pat = false) -> deletes pat s s.
Proof.
  induction s as [|c s IH]; intros H; [constructor|].
  apply del_keep; [apply (H 0%nat)|].
  apply IH. intros k. apply (H (S k)).
Qed.

Lemma deletes_first_match (i : nat) (s r : string) :
  (forall k, (k < i)%nat -> HasPrefix (str_drop k s) pat = false) ->
  HasPrefix (str_drop i s) pat = true ->
  deletes pat (str_drop (i + String.length pat) s) r ->
  deletes pat s (str_take i s ++ r)%string.
Proof.
  revert s; induction i as [|i IH]; intros s Hbefore Hat Hrest.
  - simpl in *. rewrite (HasPrefix_split pat s Hat). apply del_hit, Hrest.
  - destruct s as [|c s].
    + simpl in Hat. rewrite HasPrefix_nil_nonempty in Hat. discriminate.
    + simpl. apply del_keep; [apply (Hbefore 0%nat); lia|].
      apply IH; [intros k Hk; apply (Hbefore (S k)); lia | exact Hat | exact Hrest].
Qed.

End StringLemmas.

Section CountLemmas.

Variable pat : string.
Hypothesis pat_nonempty : pat <> EmptyString.

Lemma pat_length_pos : (0 < String.length pat)%nat.
Proof. destruct pat; simpl; [congruence | lia]. Qed.

Lemma count_loop_acc (fuel : nat) (s : string) (n : nat) :
  count_loop fuel s pat n = (n + count_loop fuel s pat 0)%nat.
Proof.
  revert s n; induction fuel as [|fuel IH]; intros s n; simpl; [lia|].
  destruct (Index s pat =? -1); [lia|].
  rewrite (IH _ (S n)), (IH _ 1%nat). lia.
Qed.

Lemma count_loop_fuel (f1 f2 : nat) (s : string) :
  (String.length s < f1)%nat -> (String.length s < f2)%nat ->
  count_loop f1 s pat 0 = count_loop f2 s pat 0.
Proof.
  revert f2 s; induction f1 as [|f1 IH]; intros f2 s H1 H2; [lia|].
  destruct f2 as [|f2]; [lia|]. simpl.
  destruct (Index s pat =? -1) eqn:E; [reflexivity|].
  rewrite (count_loop_acc f1), (count_loop_acc f2). f_equal.
  apply Z.eqb_neq in E.
  destruct (Index_range pat s) as [E'|E']; [congruence|].
  pose proof (HasPrefix_length _ _ (proj1 (Index_some pat s E'))) as Hl.
  rewrite str_drop_length in Hl.
  apply IH; rewrite str_drop_length; pose proof pat_length_pos; lia.
Qed.

(** [strings.Count] through its first match. *)
Lemma Count_none (s : string) : Index s pat = -1 -> Count s pat = 0%nat.
Proof.
  intros H. unfold Count.
  destruct (String.length pat =? 0)%nat eqn:L;
    [apply Nat.eqb_eq in L; pose proof pat_length_pos; lia|].
  simpl. rewrite H. reflexivity.
Qed.

Lemma Count_some (s : string) :
  0 <= Index s pat ->
  Count s pat = S (Count (str_drop (Z.to_nat (Index s pat) + String.length pat) s) pat).
Proof.
  intros H. unfold Count.
  destruct (String.length pat =? 0)%nat eqn:L;
    [apply Nat.eqb_eq in L; pose proof pat_length_pos; lia|].
  destruct (Index s pat =? -1) eqn:E; [apply Z.eqb_eq in E; lia|].
  transitivity (count_loop (String.length s)
                  (str_drop (Z.to_nat (Index s pat) + String.length pat) s) pat 1);
    [simpl; rewrite E; reflexivity|].
  rewrite count_loop_acc. f_equal.
  pose proof (HasPrefix_length _ _ (proj1 (Index_some pat s H))) as Hl.
  rewrite str_drop_length in Hl.
  apply count_loop_fuel; rewrite str_drop_length; pose proof pat_length_pos; lia.
Qed.

(** The replacement loop run for exactly the number of matches counted
    from [start] deletes them all, left to right. *)
Lemma replace_loop_deletes (s : string) (m start : nat) :
  Count (str_drop start s) pat = m ->
  deletes pat (str_drop start s) (replace_loop s pat EmptyString start m).
Proof.
  revert start; induction m as [|m IH]; intros start Hc; simpl.
  - apply deletes_no_match.
    destruct (Index_range pat (str_drop start s)) as [E|E].
    + apply Index_none; assumption.
    + rewrite Count_some in Hc by assumption. discriminate.
  - destruct (Index_range pat (str_drop start s)) as [E|E].
    + rewrite Count_none in Hc by assumption. discriminate.
    + rewrite Count_some in Hc by assumption. injection Hc as Hc.
      destruct (Index_some pat (str_drop start s) E) as [Hat Hbefore].
      replace (start + Z.to_nat (Index (str_drop start s) pat) - start)%nat
        with (Z.to_nat (Index (str_drop start s) pat)) by lia.
      apply deletes_first_match; [exact pat_nonempty | exact Hbefore | exact Hat |].
      rewrite str_drop_drop in Hc |- *.
      replace (start + (Z.to_nat (Index (str_drop start s) pat) + String.length pat))%nat
        with (start + Z.to_nat (Index (str_drop start s) pat) + String.length pat)%nat
        in Hc |- * by lia.
      apply IH, Hc.
Qed.

Lemma ReplaceAll_deletes (s : string) : deletes pat s (ReplaceAll s pat EmptyString).
Proof.
  unfold ReplaceAll, Replace.
  destruct (String.eqb pat EmptyString) eqn:Ep;
    [apply String.eqb_eq in Ep; congruence|].
  simpl. destruct (Count s pat =? 0)%nat eqn:Ec.
  - apply Nat.eqb_eq in Ec.
    apply (replace_loop_deletes s 0 0), Ec.
  - apply (replace_loop_deletes s _ 0). reflexivity.
Qed.

Lemma app_nonempty_ne (p s : string) : p <> EmptyString -> (p ++ s)%string <> EmptyString.
Proof. destruct p; simpl; intros H; [exfalso; apply H; reflexivity | discriminate]. Qed.

Lemma str_app_cancel (p a b : string) : (p ++ a)%string = (p ++ b)%string -> a = b.
Proof. induction p; simpl; intros H; [exact H | injection H; auto]. Qed.

Lemma deletes_inv (s r : string) :
  deletes pat s r ->
  (s = EmptyString /\ r = EmptyString) \/
  (exists s', s = (pat ++ s')%string /\ deletes pat s' r) \/
  (exists c s' r', s = String c s' /\ r = String c r' /\
     HasPrefix (String c s') pat = false /\ deletes pat s' r').
Proof. intros H; destruct H; eauto 10. Qed.

(** [deletes pat] is a function of its input. *)
Lemma deletes_functional (s r1 r2 : string) :
  deletes pat s r1 -> deletes pat s r2 -> r1 = r2.
Proof.
  intros H1; revert r2; induction H1 as [|s r1 H1 IH|c s r1 Hp H1 IH]; intros r2 H2;
    apply deletes_inv in H2 as [[Es Er]|[[s' [Es H2]]|[c' [s' [r' [Es [Er [Hp' H2]]]]]]]].
  - congruence.
  - exfalso. apply (app_nonempty_ne pat s' pat_nonempty). congruence.
  - discriminate.
  - exfalso. apply (app_nonempty_ne pat s pat_nonempty). exact Es.
  - apply str_app_cancel in Es. subst s'. apply IH, H2.
  - rewrite <- Es, HasPrefix_app in Hp'. discriminate.
  - discriminate.
  - rewrite Es, HasPrefix_app in Hp. discriminate.
  - injection Es as -> ->. subst r2. f_equal. apply IH, H2.
Qed.

End CountLemmas.

Section TargetLemmas.

Lemma str_take_app (a b : string) : str_take (String.length a) (a ++ b)%string = a.
Proof. induction a; simpl; [reflexivity | rewrite IHa; reflexivity]. Qed.

Lemma Index_range_byte (s : string) (c : ascii) : IndexByte s c = -1 \/ 0 <= IndexByte s c.
Proof.
  induction s as [|b s IH]; simpl; [left; reflexivity|].
  destruct (Ascii.eqb b c); [right; lia|].
  destruct (IndexByte s c <? 0) eqn:E; [left; reflexivity | right].
  apply Z.ltb_ge in E; lia.
Qed.

Lemma IndexByte_absent (s : string) (c : ascii) :
  (forall k, String.get k s <> Some c) -> IndexByte s c = -1.
Proof.
  induction s as [|b s IH]; intros H; [reflexivity|]. simpl.
  destruct (Ascii.eqb b c) eqn:E.
  - apply Ascii.eqb_eq in E. subst. exfalso. apply (H 0%nat). reflexivity.
  - rewrite IH; [reflexivity|]. intros k. apply (H (S k)).
Qed.

Lemma IndexByte_first (pre post : string) (c : ascii) :
  (forall k, String.get k pre <> Some c) ->
  IndexByte (pre ++ String c post)%string c = Z.of_nat (String.length pre).
Proof.
  induction pre as [|b pre IH]; intros H; simpl; [rewrite Ascii.eqb_refl; reflexivity|].
  destruct (Ascii.eqb b c) eqn:E.
  - apply Ascii.eqb_eq in E. subst. exfalso. apply (H 0%nat). reflexivity.
  - rewrite IH by (intros k; apply (H (S k))).
    destruct (Z.of_nat (String.length pre) <? 0) eqn:L; [lia|]. lia.
Qed.

(** A string with a byte [c] splits at the first [c]. *)
Lemma split_first (s : string) (c : ascii) :
  (exists k, String.get k s = Some c) ->
  exists pre post, s = (pre ++ String c post)%string /\
                   forall k, String.get k pre <> Some c.
Proof.
  induction s as [|b s IH]; intros [k Hk]; [destruct k; discriminate|].
  destruct (Ascii.eqb b c) eqn:E.
  - apply Ascii.eqb_eq in E. subst. exists EmptyString, s.
    split; [reflexivity | intros j; destruct j; discriminate].
  - destruct k as [|k]; simpl in Hk.
    + injection Hk as ->. rewrite Ascii.eqb_refl in E. discriminate.
    + destruct (IH (ex_intro _ k Hk)) as [pre [post [-> Hpre]]].
      exists (String b pre), post. split; [reflexivity|].
      intros [|j]; simpl; [intros Hb; injection Hb as ->; rewrite Ascii.eqb_refl in E; discriminate
                          | apply Hpre].
Qed.

Lemma GetDefaultHost_split (namespace pre post : string) :
  (forall k, String.get k pre <> Some ":"%char) ->
  GetDefaultHostFromTargetFunc namespace (pre ++ String ":" post)%string
  = GOk (ReplaceAll pre (dot_namespace namespace) EmptyString).
Proof.
  intros H. unfold GetDefaultHostFromTargetFunc, slice_to.
  rewrite IndexByte_first by exact H.
  rewrite str_length_app. simpl String.length.
  destruct ((Z.of_nat (String.length pre) <? 0)
            || (Z.of_nat (String.length pre + S (String.length post)) <? Z.of_nat (String.length pre)))
    eqn:B; [apply orb_true_iff in B as [B|B]; apply Z.ltb_lt in B; lia|].
  rewrite Nat2Z.id, str_take_app. reflexivity.
Qed.

Lemma IndexByte_absent_get (s : string) (c : ascii) :
  IndexByte s c = -1 -> forall k, String.get k s <> Some c.
Proof.
  induction s as [|b s IH]; intros H k; [destruct k; discriminate|]. simpl in H.
  destruct (Ascii.eqb b c) eqn:E; [discriminate|].
  destruct k as [|k]; simpl.
  - intros Hb. injection Hb as ->. rewrite Ascii.eqb_refl in E. discriminate.
  - apply IH. destruct (Index_range_byte s c) as [R|R]; [exact R|].
    rewrite (proj2 (Z.ltb_ge _ _) R) in H. lia.
Qed.

End TargetLemmas.

(** ** Runs of the interceptors *)

Lemma lookup_last {A} (l : list A) (x : A) : (l ++ [x]) !! length l = Some x.
Proof. rewrite lookup_app_r by lia. rewrite Nat.sub_diag. reflexivity. Qed.

Lemma insert_last {A} (l : list A) (x y : A) : <[length l := y]> (l ++ [x]) = l ++ [y].
Proof. rewrite insert_app_r_alt by lia. rewrite Nat.sub_diag. reflexivity. Qed.

Ltac run_step := repeat progress (rewrite ?insert_last, ?lookup_last; cbn).

Ltac unfold_monad :=
  unfold Capture, capture_in, capture_bare, NewSegmentFromHeader, BeginSubsegment, alloc_segment,
    with_defer, Close, Lock, Unlock, set_request, set_method, set_status, modify_seg,
    call_ext, GetSegment, mbind, M_bind, mret, M_ret.

Section Runs.

Context {Header : Type} (FromString : string -> Header) {E : Type}.
Context (DownstreamHeaderString : list (Segment Header) -> nat -> string).

(** The server interceptor with metadata, in one step: the new segment
    is the last one of the store. *)
Lemma server_run (sn : string -> string) (ctx : Context) (md : MD) (req : iface)
  (info : UnaryServerInfo) (handler : UnaryHandler Header E) (w : World Header E) :
  ctx_incoming ctx = Some md ->
  NewGrpcXrayUnaryServerInterceptor FromString sn ctx req info handler w =
  let n := length (segs w) in
  let r0 := mkRequestData GrpcMethod (FullMethod info)
              (match ctx_peer ctx with Some a => a | None => EmptyString end) CustomUserAgent in
  let mk st cl := mkSegment (truncate_name (sn "only NewFixedSegmentNamer is supported")) None
                    (Some (FromString (trace_string md))) false r0 st cl in
  match handler (with_segment ctx n) req (segs w ++ [mk 0 []]) (ext w) with
  | Ret (resp, err) e =>
      Ret (resp, err) (mkWorld (segs w ++ [mk (match err with Some _ => 400 | None => 200 end) [None]]) e)
  | Panic p e => Panic p (mkWorld (segs w ++ [mk 0 [None]]) e)
  | Stuck e => Stuck (mkWorld (segs w ++ [mk 0 []]) e)
  end.
Proof.
  intros Hmd. unfold NewGrpcXrayUnaryServerInterceptor. rewrite Hmd.
  unfold_monad. cbn. run_step.
  destruct (handler _ _ _ _) as [[resp err] e|p e|e]; cbn.
  - run_step. destruct err; run_step; reflexivity.
  - run_step; reflexivity.
  - reflexivity.
Qed.

(** The client interceptor under a segment, in one step: the new
    subsegment is the last one of the store. *)
Lemma client_run (hostFromTarget : string -> E -> outcome E string) (ctx : Context)
  (parent : nat) (method : string) (req resp : iface) (cc : ClientConn)
  (invoker : UnaryInvoker Header E) (w : World Header E) (host : string) (e1 : E) :
  ctx_segment ctx = Some parent ->
  hostFromTarget (Target cc) (ext w) = Ret host e1 ->
  NewGrpcXrayUnaryClientInterceptor DownstreamHeaderString hostFromTarget ctx method req resp cc invoker w =
  let n := length (segs w) in
  let mk lk st cl := mkSegment (truncate_name host) (Some parent) None lk
                       (mkRequestData GrpcMethod "" "" "") st cl in
  let c := AppendToOutgoingContext (with_segment ctx n) TraceIDHeaderKey
             (DownstreamHeaderString (segs w ++ [mk true 0 []]) n) in
  match invoker c method req resp cc (segs w ++ [mk false 0 []]) e1 with
  | Ret err e =>
      Ret err (mkWorld (segs w ++ [mk false (match err with Some _ => 400 | None => 200 end) [err]]) e)
  | Panic p e => Panic p (mkWorld (segs w ++ [mk false 0 [Some (panic_error p)]]) e)
  | Stuck e => Stuck (mkWorld (segs w ++ [mk false 0 []]) e)
  end.
Proof.
  intros Hseg Hhost. unfold NewGrpcXrayUnaryClientInterceptor.
  unfold_monad. cbn. rewrite Hhost. cbn. rewrite Hseg. cbn. run_step.
  destruct (invoker _ _ _ _ _ _ _) as [err e|p e|e]; cbn.
  - run_step. destruct err; run_step; reflexivity.
  - run_step; reflexivity.
  - reflexivity.
Qed.

End Runs.
Example host_ex1 :
  GetDefaultHostFromTargetFunc "my-namespace" "my-service.my-namespace.local:3000"
  = GOk "my-service.local".
Proof. vm_compute. reflexivity. Qed.

Example host_ex2 :
  GetDefaultHostFromTargetFunc "prod" "db.prod.replica.prod:5432" = GOk "db.replica".
Proof. vm_compute. reflexivity. Qed.

Example host_ex3 :
  GetDefaultHostFromTargetFunc "prod" "localhost" = GPanic (BoundsError BoundsSliceAlen (-1) 9).
Proof. vm_compute. reflexivity. Qed.

Example panic_text_ex :
  panic_text (BoundsError BoundsSliceAlen (-1) 9) = "runtime error: slice bounds out of range [:-1]".
Proof. vm_compute. reflexivity. Qed.


(** * Claims *)

(** ** GetDefaultHostFromTargetFunc *)

(** C1 (counterexample): with namespace ["prod"] and target
    ["db.prod.replica.prod:5432"] the function returns ["db.replica"]:
    both occurrences of [".prod"] are deleted, not only the first, so
    the result is not ["db.replica.prod"]. *)
Lemma default_host_first_occurrence_only_fails :
  GetDefaultHostFromTargetFunc "prod" "db.prod.replica.prod:5432" = GOk "db.replica" /\
  GetDefaultHostFromTargetFunc "prod" "db.prod.replica.prod:5432" <> GOk "db.replica.prod".
Proof. vm_compute. split; [reflexivity | discriminate]. Qed.

(** C1 (amended): for every namespace [ns] and every target
    [pre ++ ":" ++ post] whose first colon ends [pre], the function
    returns [pre] with every occurrence of ["." ++ ns] found by a
    left-to-right scan deleted ([strings.ReplaceAll]), and that result
    is the only one the scan allows. *)
Theorem default_host_deletes_every_occurrence (ns pre post : string) :
  (forall k, String.get k pre <> Some ":"%char) ->
  exists host,
    GetDefaultHostFromTargetFunc ns (pre ++ String ":" post)%string = GOk host /\
    deletes (String "." ns) pre host /\
    (forall r, deletes (String "." ns) pre r -> r = host).
Proof.
  intros Hpre. rewrite GetDefaultHost_split by exact Hpre.
  assert (Hne : String "." ns <> EmptyString) by discriminate.
  exists (ReplaceAll pre (dot_namespace ns) EmptyString).
  split; [reflexivity|].
  pose proof (ReplaceAll_deletes (String "." ns) Hne pre) as D.
  split; [exact D|].
  intros r Hr. apply (deletes_functional _ Hne pre); assumption.
Qed.

Lemma default_host_deletes_every_occurrence_witness :
  exists host,
    GetDefaultHostFromTargetFunc "prod" ("db.prod.replica.prod" ++ String ":" "5432")%string = GOk host /\
    deletes (String "." "prod") "db.prod.replica.prod" host /\
    (forall r, deletes (String "." "prod") "db.prod.replica.prod" r -> r = host).
Proof.
  apply (default_host_deletes_every_occurrence "prod" "db.prod.replica.prod" "5432").
  apply IndexByte_absent_get. reflexivity.
Defined.

(** C8: for every namespace, the function returns a result on every
    target holding a colon, and on a target without colon it panics with
    Go's bounds error for [target[:-1]] (index -1, length of target). *)
Theorem default_host_total_iff_colon (ns target : string) :
  ((exists k, String.get k target = Some ":"%char) ->
     exists host, GetDefaultHostFromTargetFunc ns target = GOk host) /\
  ((forall k, String.get k target <> Some ":"%char) ->
     GetDefaultHostFromTargetFunc ns target
     = GPanic (BoundsError BoundsSliceAlen (-1) (Z.of_nat (String.length target)))).
Proof.
  split.
  - intros Hcolon.
    destruct (split_first target ":" Hcolon) as [pre [post [-> Hpre]]].
    rewrite GetDefaultHost_split by exact Hpre. eexists; reflexivity.
  - intros Hnone. unfold GetDefaultHostFromTargetFunc, slice_to.
    rewrite IndexByte_absent by exact Hnone. reflexivity.
Qed.

Lemma default_host_total_iff_colon_witness :
  (exists host, GetDefaultHostFromTargetFunc "ns" "svc.ns:443" = GOk host) /\
  GetDefaultHostFromTargetFunc "ns" "localhost"
  = GPanic (BoundsError BoundsSliceAlen (-1) (Z.of_nat (String.length "localhost"))).
Proof.
  split.
  - apply (proj1 (default_host_total_iff_colon "ns" "svc.ns:443")).
    exists 6%nat. reflexivity.
  - apply (proj2 (default_host_total_iff_colon "ns" "localhost")).
    apply IndexByte_absent_get. reflexivity.
Defined.

(** ** NewGrpcXrayUnaryServerInterceptor *)

Lemma trace_string_first (md : MD) :
  trace_string md =
  match md !! TraceIDHeaderKey with Some (v :: _) => v | _ => EmptyString end.
Proof. unfold trace_string. destruct (md !! TraceIDHeaderKey) as [[|v l]|]; reflexivity. Qed.

(** C2 (counterexample): a handler failing with the partial reply
    [IVal "partial"]: the interceptor returns that reply with the error,
    not a nil result. *)
Lemma server_error_nil_result_fails :
  ~ exists w',
      NewGrpcXrayUnaryServerInterceptor id_header svc_namer sample_server_ctx INil sample_info
        partial_reply_handler empty_world
      = Ret (INil, Some (Err "deadline exceeded")) w'.
Proof. vm_compute. intros [w' H]. discriminate H. Qed.

(** C2 (amended): when the handler returns a non-nil error, the created
    segment's response status is 400 and the interceptor returns the
    handler's own result value (nil or not) together with that error.
    The hypothesis is about the one call the interceptor makes: on the
    caller's context carrying the new segment, the caller's request,
    and the store holding that segment (request metadata set, lock
    free); the handler's answer may depend on all of them. *)
Theorem server_handler_error_passthrough {Header E : Type} (FromString : string -> Header)
  (sn : string -> string) (ctx : Context) (md : MD) (req : iface) (info : UnaryServerInfo)
  (handler : UnaryHandler Header E) (w : World Header E) (resp : iface) (err : error) (e' : E) :
  ctx_incoming ctx = Some md ->
  handler (with_segment ctx (length (segs w))) req
    (segs w ++ [mkSegment (truncate_name (sn "only NewFixedSegmentNamer is supported")) None
                  (Some (FromString (trace_string md))) false
                  (mkRequestData "POST" (FullMethod info)
                     (match ctx_peer ctx with Some a => a | None => EmptyString end)
                     "Vendrive-gRPC-XRAY-Interceptor") 0 []]) (ext w)
  = Ret (resp, Some err) e' ->
  exists w' s,
    NewGrpcXrayUnaryServerInterceptor FromString sn ctx req info handler w = Ret (resp, Some err) w' /\
    segs w' !! length (segs w) = Some s /\ seg_status s = 400.
Proof.
  intros Hmd Hh. rewrite (server_run FromString sn ctx md) by exact Hmd. cbn zeta.
  unfold GrpcMethod, CustomUserAgent. rewrite Hh.
  do 2 eexists. split; [reflexivity|]. split; [apply lookup_last | reflexivity].
Qed.

Lemma server_handler_error_passthrough_witness :
  exists w' s,
    NewGrpcXrayUnaryServerInterceptor id_header svc_namer sample_server_ctx INil sample_info
      peer_gated_handler empty_world
    = Ret (IVal "partial", Some (Err "denied")) w' /\
    segs w' !! length (segs empty_world) = Some s /\ seg_status s = 400.
Proof.
  apply (server_handler_error_passthrough id_header svc_namer sample_server_ctx sample_md
           INil sample_info peer_gated_handler empty_world
           (IVal "partial") (Err "denied") tt);
    reflexivity.
Defined.

(** C3: without incoming metadata the interceptor returns a nil result
    and a non-nil error; the state is untouched (no segment is created)
    and the result is the same for every handler (it is never called). *)
Theorem server_missing_metadata_fails_fast {Header E : Type} (FromString : string -> Header)
  (sn : string -> string) (ctx : Context) (req : iface) (info : UnaryServerInfo)
  (handler : UnaryHandler Header E) (w : World Header E) :
  ctx_incoming ctx = None ->
  NewGrpcXrayUnaryServerInterceptor FromString sn ctx req info handler w
  = Ret (INil, Some (Err "unable to read metadata")) w.
Proof.
  intros H. unfold NewGrpcXrayUnaryServerInterceptor. rewrite H. reflexivity.
Qed.

Lemma server_missing_metadata_fails_fast_witness :
  NewGrpcXrayUnaryServerInterceptor id_header svc_namer bare_server_ctx INil sample_info
    partial_reply_handler empty_world
  = Ret (INil, Some (Err "unable to read metadata")) empty_world.
Proof. apply server_missing_metadata_fails_fast. reflexivity. Defined.

(** C6: the created segment continues the header parsed from the first
    value under the trace-header key, or from the empty string when the
    key is absent or its list is empty; this holds however the run ends. *)
Theorem server_trace_string_first_value {Header E : Type} (FromString : string -> Header)
  (sn : string -> string) (ctx : Context) (md : MD) (req : iface) (info : UnaryServerInfo)
  (handler : UnaryHandler Header E) (w : World Header E) :
  ctx_incoming ctx = Some md ->
  exists s,
    segs (final_state (NewGrpcXrayUnaryServerInterceptor FromString sn ctx req info handler w))
      !! length (segs w) = Some s /\
    seg_incoming s = Some (FromString (match md !! TraceIDHeaderKey with
                                       | Some (v :: _) => v
                                       | _ => EmptyString
                                       end)).
Proof.
  intros Hmd. rewrite (server_run FromString sn ctx md) by exact Hmd. cbn zeta.
  rewrite <- trace_string_first.
  destruct (handler _ _ _ _) as [[resp err] e|p e|e]; cbn;
    (eexists; split; [apply lookup_last | reflexivity]).
Qed.

Lemma server_trace_string_first_value_witness :
  exists s,
    segs (final_state (NewGrpcXrayUnaryServerInterceptor id_header svc_namer sample_server_ctx
                         INil sample_info partial_reply_handler empty_world))
      !! length (segs empty_world) = Some s /\
    seg_incoming s = Some (id_header (match sample_md !! TraceIDHeaderKey with
                                      | Some (v :: _) => v
                                      | _ => EmptyString
                                      end)).
Proof. apply server_trace_string_first_value. reflexivity. Defined.

(** C7: the handler is only ever given a view of the segments in which
    the created segment's request metadata is exactly
    {POST, the registered full method, the peer address or "",
    "Vendrive-gRPC-XRAY-Interceptor"}: two handlers that agree on such
    views give the same run.  The segment keeps that request metadata
    to the end of the run. *)
Theorem server_request_metadata_before_handler {Header E : Type} (FromString : string -> Header)
  (sn : string -> string) (ctx : Context) (md : MD) (req : iface) (info : UnaryServerInfo)
  (w : World Header E) :
  ctx_incoming ctx = Some md ->
  let expected :=
    mkRequestData "POST" (FullMethod info)
      (match ctx_peer ctx with Some addr => addr | None => EmptyString end)
      "Vendrive-gRPC-XRAY-Interceptor" in
  (forall h1 h2 : UnaryHandler Header E,
     (forall c r st e,
        (exists s, st !! length (segs w) = Some s /\ seg_request s = expected) ->
        h1 c r st e = h2 c r st e) ->
     NewGrpcXrayUnaryServerInterceptor FromString sn ctx req info h1 w
     = NewGrpcXrayUnaryServerInterceptor FromString sn ctx req info h2 w) /\
  (forall handler : UnaryHandler Header E,
     exists s,
       segs (final_state (NewGrpcXrayUnaryServerInterceptor FromString sn ctx req info handler w))
         !! length (segs w) = Some s /\ seg_request s = expected).
Proof.
  intros Hmd expected. split.
  - intros h1 h2 Hagree.
    rewrite !(server_run FromString sn ctx md) by exact Hmd. cbn zeta.
    rewrite Hagree; [reflexivity|].
    eexists; split; [apply lookup_last | reflexivity].
  - intros handler. rewrite (server_run FromString sn ctx md) by exact Hmd. cbn zeta.
    destruct (handler _ _ _ _) as [[resp err] e|p e|e]; cbn;
      (eexists; split; [apply lookup_last | reflexivity]).
Qed.

Lemma server_request_metadata_before_handler_witness :
  NewGrpcXrayUnaryServerInterceptor id_header svc_namer sample_server_ctx INil sample_info
    partial_reply_handler empty_world
  = NewGrpcXrayUnaryServerInterceptor id_header svc_namer sample_server_ctx INil sample_info
      (fun c r st e =>
         match st !! 0%nat with
         | Some s => if String.eqb (Method (seg_request s)) "POST"
                     then partial_reply_handler c r st e
                     else Ret (INil, None) e
         | None => Ret (INil, None) e
         end) empty_world.
Proof.
  apply (proj1 (server_request_metadata_before_handler id_header svc_namer sample_server_ctx
                  sample_md INil sample_info empty_world eq_refl)).
  intros c r st e [s [Hs Hr]]. simpl in Hs. rewrite Hs, Hr. reflexivity.
Defined.

(** C9: once the segment is created, every run that ends (a return,
    with an error or not, or a panic of the handler) has called the
    segment's [Close] exactly once, with a nil error. *)
Theorem server_segment_closed_once {Header E : Type} (FromString : string -> Header)
  (sn : string -> string) (ctx : Context) (md : MD) (req : iface) (info : UnaryServerInfo)
  (handler : UnaryHandler Header E) (w : World Header E) :
  ctx_incoming ctx = Some md ->
  (forall r w',
     NewGrpcXrayUnaryServerInterceptor FromString sn ctx req info handler w = Ret r w' ->
     exists s, segs w' !! length (segs w) = Some s /\ seg_closes s = [None]) /\
  (forall p w',
     NewGrpcXrayUnaryServerInterceptor FromString sn ctx req info handler w = Panic p w' ->
     exists s, segs w' !! length (segs w) = Some s /\ seg_closes s = [None]).
Proof.
  intros Hmd. rewrite (server_run FromString sn ctx md) by exact Hmd. cbn zeta.
  destruct (handler _ _ _ _) as [[resp err] e|p e|e];
    split; intros ? w' H; inversion H; subst;
    (eexists; split; [apply lookup_last | reflexivity]).
Qed.

Lemma server_segment_closed_once_witness :
  exists s,
    segs (final_state (NewGrpcXrayUnaryServerInterceptor id_header svc_namer sample_server_ctx
                         INil sample_info partial_reply_handler empty_world))
      !! length (segs empty_world) = Some s /\ seg_closes s = [None].
Proof.
  apply (proj1 (server_segment_closed_once id_header svc_namer sample_server_ctx sample_md
                  INil sample_info partial_reply_handler empty_world eq_refl)
           (IVal "partial", Some (Err "deadline exceeded"))).
  vm_compute. reflexivity.
Defined.

(** ** Both interceptors *)

(** C5: when a segment exists (created by the server interceptor, or
    the subsegment the client interceptor opens under the context's
    segment) and the wrapped call returns, the segment's response status
    is 400 when the returned error is non-nil and 200 when it is nil,
    whatever the result value.  The hypotheses are about the one call
    the interceptor makes (its context, with the new segment and, on
    the client, the appended trace header, and the store holding the
    segment); the wrapped call's answer may depend on them. *)
Theorem status_follows_error_nilness :
  (forall (Header E : Type) (FromString : string -> Header) (sn : string -> string)
          (ctx : Context) (md : MD) (req : iface) (info : UnaryServerInfo)
          (handler : UnaryHandler Header E) (w : World Header E)
          (resp : iface) (err : option error) (e' : E),
     ctx_incoming ctx = Some md ->
     handler (with_segment ctx (length (segs w))) req
       (segs w ++ [mkSegment (truncate_name (sn "only NewFixedSegmentNamer is supported")) None
                     (Some (FromString (trace_string md))) false
                     (mkRequestData "POST" (FullMethod info)
                        (match ctx_peer ctx with Some a => a | None => EmptyString end)
                        "Vendrive-gRPC-XRAY-Interceptor") 0 []]) (ext w)
     = Ret (resp, err) e' ->
     exists w' s,
       NewGrpcXrayUnaryServerInterceptor FromString sn ctx req info handler w = Ret (resp, err) w' /\
       segs w' !! length (segs w) = Some s /\
       seg_status s = match err with Some _ => 400 | None => 200 end) /\
  (forall (Header E : Type) (DownstreamHeaderString : list (Segment Header) -> nat -> string)
          (hostFromTarget : string -> E -> outcome E string) (ctx : Context) (parent : nat)
          (method : string) (req resp : iface) (cc : ClientConn)
          (invoker : UnaryInvoker Header E) (w : World Header E)
          (host : string) (e1 : E) (err : option error) (e2 : E),
     ctx_segment ctx = Some parent ->
     hostFromTarget (Target cc) (ext w) = Ret host e1 ->
     invoker
       (mkContext (Some (length (segs w))) (ctx_incoming ctx)
          (ctx_outgoing ctx ++
             [("x-amzn-trace-id",
               DownstreamHeaderString
                 (segs w ++ [mkSegment (truncate_name host) (Some parent) None true
                               (mkRequestData "POST" "" "" "") 0 []]) (length (segs w)))])
          (ctx_peer ctx))
       method req resp cc
       (segs w ++ [mkSegment (truncate_name host) (Some parent) None false
                     (mkRequestData "POST" "" "" "") 0 []]) e1
     = Ret err e2 ->
     exists w' s,
       NewGrpcXrayUnaryClientInterceptor DownstreamHeaderString hostFromTarget ctx method req resp
         cc invoker w = Ret err w' /\
       segs w' !! length (segs w) = Some s /\
       seg_status s = match err with Some _ => 400 | None => 200 end).
Proof.
  split.
  - intros Header E FromString sn ctx md req info handler w resp err e' Hmd Hh.
    rewrite (server_run FromString sn ctx md) by exact Hmd. cbn zeta.
    unfold GrpcMethod, CustomUserAgent. rewrite Hh.
    do 2 eexists. split; [reflexivity|]. split; [apply lookup_last | reflexivity].
  - intros Header E D hostFromTarget ctx parent method req resp cc invoker w host e1 err e2
      Hseg Hhost Hinv.
    rewrite (client_run D hostFromTarget ctx parent method req resp cc invoker w host e1) by assumption.
    cbn zeta. unfold AppendToOutgoingContext, with_segment, TraceIDHeaderKey, GrpcMethod.
    cbn [ctx_segment ctx_incoming ctx_outgoing ctx_peer]. rewrite Hinv.
    do 2 eexists. split; [reflexivity|]. split; [apply lookup_last | reflexivity].
Qed.

Lemma status_follows_error_nilness_witness :
  (exists w' s,
     NewGrpcXrayUnaryServerInterceptor id_header svc_namer sample_server_ctx INil sample_info
       peer_gated_handler empty_world
     = Ret (IVal "partial", Some (Err "denied")) w' /\
     segs w' !! length (segs empty_world) = Some s /\ seg_status s = 400) /\
  (exists w' s,
     NewGrpcXrayUnaryClientInterceptor sample_downstream identity_host traced_client_ctx
       "/orders.Orders/Get" INil INil svc_conn metadata_gated_invoker traced_world = Ret None w' /\
     segs w' !! length (segs traced_world) = Some s /\ seg_status s = 200).
Proof.
  split.
  - apply (proj1 status_follows_error_nilness string unit id_header svc_namer sample_server_ctx
             sample_md INil sample_info peer_gated_handler empty_world
             (IVal "partial") (Some (Err "denied")) tt); reflexivity.
  - apply (proj2 status_follows_error_nilness string unit sample_downstream identity_host
             traced_client_ctx 0%nat "/orders.Orders/Get" INil INil svc_conn metadata_gated_invoker
             traced_world "svc:443" tt None tt); reflexivity.
Defined.

(** ** NewGrpcXrayUnaryClientInterceptor *)

(** C4: with no segment in the context, once [hostFromTarget] has
    returned, the invoker is called on the caller's own context (no
    metadata appended) and on the same segments, and its error is
    returned unchanged; no segment is created or written.  (A panic of
    the invoker does not come through: [xray.Capture]'s recover handler
    replaces it with a nil pointer dereference.) *)
Theorem client_untraced_invokes_directly {Header E : Type}
  (DownstreamHeaderString : list (Segment Header) -> nat -> string)
  (hostFromTarget : string -> E -> outcome E string) (ctx : Context) (method : string)
  (req resp : iface) (cc : ClientConn) (invoker : UnaryInvoker Header E)
  (w : World Header E) (host : string) (e1 : E) :
  ctx_segment ctx = None ->
  hostFromTarget (Target cc) (ext w) = Ret host e1 ->
  NewGrpcXrayUnaryClientInterceptor DownstreamHeaderString hostFromTarget ctx method req resp cc
    invoker w
  = match invoker ctx method req resp cc (segs w) e1 with
    | Ret err e2 => Ret err (mkWorld (segs w) e2)
    | Panic _ e2 => Panic nil_deref (mkWorld (segs w) e2)
    | Stuck e2 => Stuck (mkWorld (segs w) e2)
    end.
Proof.
  intros Hseg Hhost. unfold NewGrpcXrayUnaryClientInterceptor.
  unfold_monad. cbn. rewrite Hhost. cbn. rewrite Hseg. cbn.
  destruct (invoker _ _ _ _ _ _ _); reflexivity.
Qed.

Lemma client_untraced_invokes_directly_witness :
  NewGrpcXrayUnaryClientInterceptor sample_downstream identity_host untraced_client_ctx
    "/orders.Orders/Get" INil INil svc_conn ok_invoker traced_world
  = Ret None (mkWorld (segs traced_world) tt).
Proof.
  apply (client_untraced_invokes_directly sample_downstream identity_host untraced_client_ctx
           "/orders.Orders/Get" INil INil svc_conn ok_invoker traced_world "svc:443" tt);
    reflexivity.
Defined.

(** C10: the client interceptor first runs [hostFromTarget] on the
    connection's target, once, and continues with a computation [K] of
    the host alone; when no segment is in the context, [K] does no
    tracing work (the invoker runs on the caller's context, the segments
    are left as they are), and a panic of [hostFromTarget] (such as the
    default normalizer's on a target without colon) ends the run even
    then. *)
Theorem client_host_from_target_first {Header E : Type}
  (DownstreamHeaderString : list (Segment Header) -> nat -> string) (ctx : Context)
  (method : string) (req resp : iface) (cc : ClientConn) (invoker : UnaryInvoker Header E) :
  exists K : string -> M Header E (option error),
    (forall hostFromTarget : string -> E -> outcome E string,
       NewGrpcXrayUnaryClientInterceptor DownstreamHeaderString hostFromTarget ctx method req resp
         cc invoker
       = (host ← call_ext (fun _ => hostFromTarget (Target cc)); K host)) /\
    (ctx_segment ctx = None ->
       forall host (w : World Header E),
         K host w = match invoker ctx method req resp cc (segs w) (ext w) with
                    | Ret err e => Ret err (mkWorld (segs w) e)
                    | Panic _ e => Panic nil_deref (mkWorld (segs w) e)
                    | Stuck e => Stuck (mkWorld (segs w) e)
                    end) /\
    (forall (hostFromTarget : string -> E -> outcome E string) (w : World Header E) p e,
       hostFromTarget (Target cc) (ext w) = Panic p e ->
       NewGrpcXrayUnaryClientInterceptor DownstreamHeaderString hostFromTarget ctx method req resp
         cc invoker w = Panic p (mkWorld (segs w) e)).
Proof.
  eexists. split; [|split].
  - intros hostFromTarget. unfold NewGrpcXrayUnaryClientInterceptor. reflexivity.
  - intros Hseg host w. unfold Capture, BeginSubsegment, GetSegment, capture_bare, call_ext.
    unfold mbind, M_bind, mret, M_ret. rewrite Hseg. cbn.
    destruct (invoker _ _ _ _ _ _ _); reflexivity.
  - intros hostFromTarget w p e Hhost. unfold NewGrpcXrayUnaryClientInterceptor.
    unfold mbind, M_bind, call_ext. rewrite Hhost. reflexivity.
Qed.

Lemma client_host_from_target_first_witness :
  NewGrpcXrayUnaryClientInterceptor sample_downstream
    (pure_fn (GetDefaultHostFromTargetFunc "ns")) untraced_client_ctx "/orders.Orders/Get"
    INil INil (mkClientConn "localhost") ok_invoker traced_world
  = Panic (BoundsError BoundsSliceAlen (-1) 9) (mkWorld (segs traced_world) tt).
Proof.
  destruct (client_host_from_target_first sample_downstream untraced_client_ctx
              "/orders.Orders/Get" INil INil (mkClientConn "localhost") ok_invoker)
    as [K [_ [_ Hpanic]]].
  apply Hpanic. reflexivity.
Defined.

(** * Further properties of the code *)

(** ** Helper lemmas *)

Lemma str_take_drop (k : nat) (s : string) : (str_take k s ++ str_drop k s)%string = s.
Proof.
  revert s; induction k as [|k IH]; intros [|c s]; try reflexivity.
  transitivity (String c (str_take k s ++ str_drop k s))%string; [reflexivity|].
  rewrite IH. reflexivity.
Qed.

Lemma str_drop_app (a b : string) : str_drop (String.length a) (a ++ b)%string = b.
Proof. induction a; simpl; [reflexivity | exact IHa]. Qed.

Lemma get_app_r (a b : string) (k : nat) :
  String.get (String.length a + k) (a ++ b)%string = String.get k b.
Proof. induction a; simpl; [reflexivity | exact IHa]. Qed.

(** An absent pattern starts nowhere. *)
Lemma no_occurrence_HasPrefix (pat s : string) :
  ~ (exists a b, s = (a ++ pat ++ b)%string) -> forall k, HasPrefix (str_drop k s) pat = false.
Proof.
  intros H k. destruct (HasPrefix (str_drop k s) pat) eqn:E; [|reflexivity].
  exfalso. apply H. exists (str_take k s), (str_drop (String.length pat) (str_drop k s)).
  rewrite <- (HasPrefix_split pat _ E). symmetry. apply str_take_drop.
Qed.

(** [strings.Index] returning -1 means the pattern is absent. *)
Lemma Index_none_absent (pat s : string) :
  pat <> EmptyString -> Index s pat = -1 -> ~ (exists a b, s = (a ++ pat ++ b)%string).
Proof.
  intros Hne H [a [b ->]].
  pose proof (Index_none pat Hne _ H (String.length a)) as Hp.
  rewrite str_drop_app, HasPrefix_app in Hp. discriminate.
Qed.

(** Deleting instances of a pattern keeps only bytes of the input. *)
Lemma deletes_chars (pat s r : string) :
  deletes pat s r -> forall k c, String.get k r = Some c -> exists k', String.get k' s = Some c.
Proof.
  induction 1 as [|s r H IH|c0 s r Hp H IH]; intros k c Hk.
  - destruct k; discriminate.
  - destruct (IH k c Hk) as [k' Hk']. exists (String.length pat + k')%nat.
    rewrite get_app_r. exact Hk'.
  - destruct k as [|k]; simpl in Hk.
    + exists 0%nat. exact Hk.
    + destruct (IH k c Hk) as [k' Hk']. exists (S k'). exact Hk'.
Qed.

Lemma deletes_dot_strip (s : string) : deletes "." s (strip_byte "." s).
Proof.
  induction s as [|c s IH]; [constructor|]. simpl strip_byte.
  destruct (Ascii.eqb c ".") eqn:E.
  - apply Ascii.eqb_eq in E. subst c. exact (del_hit "." s _ IH).
  - apply del_keep; [|exact IH]. cbn [HasPrefix]. rewrite Ascii.eqb_sym, E. reflexivity.
Qed.

Lemma IndexByte_found (s : string) (c : ascii) :
  0 <= IndexByte s c -> exists k, String.get k s = Some c.
Proof.
  induction s as [|b s IH]; simpl; intros H; [lia|].
  destruct (Ascii.eqb b c) eqn:E.
  - apply Ascii.eqb_eq in E. subst. exists 0%nat. reflexivity.
  - destruct (IndexByte s c <? 0) eqn:L; [lia|]. apply Z.ltb_ge in L.
    destruct (IH L) as [k Hk]. exists (S k). exact Hk.
Qed.

(** Every result of the normalizer comes from a split at the first colon. *)
Lemma default_host_ok_split (ns target host : string) :
  GetDefaultHostFromTargetFunc ns target = GOk host ->
  exists pre post, target = (pre ++ String ":" post)%string /\
    (forall k, String.get k pre <> Some ":"%char) /\
    host = ReplaceAll pre (dot_namespace ns) EmptyString.
Proof.
  intros H. destruct (Index_range_byte target ":") as [E|E].
  - unfold GetDefaultHostFromTargetFunc, slice_to in H. rewrite E in H. discriminate.
  - destruct (split_first target ":" (IndexByte_found target ":" E)) as [pre [post [-> Hpre]]].
    rewrite GetDefaultHost_split in H by exact Hpre. injection H as <-.
    exists pre, post. auto.
Qed.

Lemma dot_namespace_nonempty (ns : string) : dot_namespace ns <> EmptyString.
Proof. discriminate. Qed.

(** ** GetDefaultHostFromTargetFunc *)

(** Only the text before the first colon reaches the host: the port,
    and anything else after the first colon (the rest of a
    ["dns:///name:port"] target, further colons), never changes the
    result. *)
Theorem default_host_ignores_after_colon (ns pre post1 post2 : string) :
  (forall k, String.get k pre <> Some ":"%char) ->
  GetDefaultHostFromTargetFunc ns (pre ++ String ":" post1)%string
  = GetDefaultHostFromTargetFunc ns (pre ++ String ":" post2)%string.
Proof. intros H. rewrite !GetDefaultHost_split by exact H. reflexivity. Qed.

Lemma default_host_ignores_after_colon_witness :
  GetDefaultHostFromTargetFunc "ns" "dns:///svc.ns:443"
  = GetDefaultHostFromTargetFunc "ns" "dns:80".
Proof.
  apply (default_host_ignores_after_colon "ns" "dns" "///svc.ns:443" "80").
  apply IndexByte_absent_get. reflexivity.
Defined.

(** When ["." ++ ns] does not occur before the first colon, the host is
    exactly the text before the first colon. *)
Theorem default_host_without_namespace_keeps_prefix (ns pre post : string) :
  (forall k, String.get k pre <> Some ":"%char) ->
  ~ (exists a b, pre = (a ++ String "." ns ++ b)%string) ->
  GetDefaultHostFromTargetFunc ns (pre ++ String ":" post)%string = GOk pre.
Proof.
  intros Hcolon Hns. rewrite GetDefaultHost_split by exact Hcolon. f_equal.
  apply (deletes_functional (dot_namespace ns) (dot_namespace_nonempty ns) pre).
  - apply ReplaceAll_deletes, dot_namespace_nonempty.
  - apply deletes_no_match. apply no_occurrence_HasPrefix, Hns.
Qed.

Lemma default_host_without_namespace_keeps_prefix_witness :
  GetDefaultHostFromTargetFunc "prod" "db.staging.local:5432" = GOk "db.staging.local".
Proof.
  apply (default_host_without_namespace_keeps_prefix "prod" "db.staging.local" "5432").
  - apply IndexByte_absent_get. reflexivity.
  - apply (Index_none_absent (dot_namespace "prod")); [discriminate | reflexivity].
Defined.

(** The host never contains a colon. *)
Theorem default_host_has_no_colon (ns target host : string) :
  GetDefaultHostFromTargetFunc ns target = GOk host ->
  forall k, String.get k host <> Some ":"%char.
Proof.
  intros H k Hk.
  destruct (default_host_ok_split ns target host H) as [pre [post [_ [Hpre ->]]]].
  destruct (deletes_chars _ _ _ (ReplaceAll_deletes _ (dot_namespace_nonempty ns) pre) k _ Hk)
    as [k' Hk'].
  exact (Hpre k' Hk').
Qed.

Lemma default_host_has_no_colon_witness : IndexByte "svc" ":" = -1.
Proof.
  apply IndexByte_absent.
  apply (default_host_has_no_colon "ns" "svc.ns:443:1" "svc"). vm_compute. reflexivity.
Defined.

(** With the empty namespace the pattern is ["."]: the host is the text
    before the first colon with every dot removed. *)
Theorem default_host_empty_namespace_strips_dots (pre post : string) :
  (forall k, String.get k pre <> Some ":"%char) ->
  GetDefaultHostFromTargetFunc "" (pre ++ String ":" post)%string = GOk (strip_byte "." pre).
Proof.
  intros H. rewrite GetDefaultHost_split by exact H. f_equal.
  apply (deletes_functional (dot_namespace "") (dot_namespace_nonempty "") pre).
  - apply ReplaceAll_deletes, dot_namespace_nonempty.
  - apply deletes_dot_strip.
Qed.

Lemma default_host_empty_namespace_strips_dots_witness :
  GetDefaultHostFromTargetFunc "" "my.service.local:80" = GOk "myservicelocal".
Proof.
  apply (default_host_empty_namespace_strips_dots "my.service.local" "80").
  apply IndexByte_absent_get. reflexivity.
Defined.

(** ** NewGrpcXrayUnaryServerInterceptor *)

(** A panic of the handler goes through the interceptor unchanged: the
    deferred [Close(nil)] has run once, no response status was written,
    and the segment's lock is free.  The hypothesis is about the one
    call the interceptor makes (the caller's context carrying the new
    segment, the caller's request, the store holding the segment); the
    handler may panic only on some calls. *)
Theorem server_handler_panic_propagates {Header E : Type} (FromString : string -> Header)
  (sn : string -> string) (ctx : Context) (md : MD) (req : iface) (info : UnaryServerInfo)
  (handler : UnaryHandler Header E) (w : World Header E) (p : panic_value) (e' : E) :
  ctx_incoming ctx = Some md ->
  handler (with_segment ctx (length (segs w))) req
    (segs w ++ [mkSegment (truncate_name (sn "only NewFixedSegmentNamer is supported")) None
                  (Some (FromString (trace_string md))) false
                  (mkRequestData "POST" (FullMethod info)
                     (match ctx_peer ctx with Some a => a | None => EmptyString end)
                     "Vendrive-gRPC-XRAY-Interceptor") 0 []]) (ext w)
  = Panic p e' ->
  exists s,
    NewGrpcXrayUnaryServerInterceptor FromString sn ctx req info handler w
    = Panic p (mkWorld (segs w ++ [s]) e') /\
    seg_closes s = [None] /\ seg_status s = 0 /\ seg_locked s = false.
Proof.
  intros Hmd Hh. rewrite (server_run FromString sn ctx md) by exact Hmd. cbn zeta.
  unfold GrpcMethod, CustomUserAgent. rewrite Hh.
  eexists; split; [reflexivity | repeat split].
Qed.

Lemma server_handler_panic_propagates_witness :
  exists s : Segment string,
    NewGrpcXrayUnaryServerInterceptor id_header svc_namer sample_server_ctx INil sample_info
      peer_gated_panic_handler empty_world
    = Panic (PanicMsg "handler failed") (mkWorld (segs empty_world ++ [s]) tt) /\
    seg_closes s = [None] /\ seg_status s = 0 /\ seg_locked s = false.
Proof.
  apply (server_handler_panic_propagates id_header svc_namer sample_server_ctx sample_md INil
           sample_info peer_gated_panic_handler empty_world (PanicMsg "handler failed") tt);
    reflexivity.
Defined.

(** The interceptor itself never panics and never blocks: a run that
    panics or blocks does so because the handler did, on the caller's
    request. *)
Theorem server_panics_only_from_handler {Header E : Type} (FromString : string -> Header)
  (sn : string -> string) (ctx : Context) (req : iface) (info : UnaryServerInfo)
  (handler : UnaryHandler Header E) (w : World Header E) :
  (forall p w',
     NewGrpcXrayUnaryServerInterceptor FromString sn ctx req info handler w = Panic p w' ->
     exists c st e, handler c req st (ext w) = Panic p e) /\
  (forall w',
     NewGrpcXrayUnaryServerInterceptor FromString sn ctx req info handler w = Stuck w' ->
     exists c st e, handler c req st (ext w) = Stuck e).
Proof.
  destruct (ctx_incoming ctx) as [md|] eqn:Hmd.
  - rewrite (server_run FromString sn ctx md) by exact Hmd. cbn zeta.
    destruct (handler _ _ _ _) as [[resp err] e|p e|e] eqn:Hh;
      split; intros * H; try discriminate; injection H; intros; subst; eauto.
  - unfold NewGrpcXrayUnaryServerInterceptor. rewrite Hmd.
    split; intros; discriminate.
Qed.

(** Once the segment is created, the store keeps every segment it had,
    unchanged, and gains exactly one: a root segment (no parent), added
    last, whatever the handler does. *)
Theorem server_adds_one_root_segment {Header E : Type} (FromString : string -> Header)
  (sn : string -> string) (ctx : Context) (md : MD) (req : iface) (info : UnaryServerInfo)
  (handler : UnaryHandler Header E) (w : World Header E) :
  ctx_incoming ctx = Some md ->
  exists s,
    segs (final_state (NewGrpcXrayUnaryServerInterceptor FromString sn ctx req info handler w))
    = segs w ++ [s] /\ seg_parent s = None.
Proof.
  intros Hmd. rewrite (server_run FromString sn ctx md) by exact Hmd. cbn zeta.
  destruct (handler _ _ _ _) as [[resp err] e|p e|e]; cbn; eexists; split; reflexivity.
Qed.

Lemma server_adds_one_root_segment_witness :
  exists s,
    segs (final_state (NewGrpcXrayUnaryServerInterceptor id_header svc_namer sample_server_ctx
                         INil sample_info panicking_handler traced_world))
    = segs traced_world ++ [s] /\ seg_parent s = None.
Proof.
  apply (server_adds_one_root_segment id_header svc_namer sample_server_ctx sample_md INil
           sample_info panicking_handler traced_world).
  reflexivity.
Defined.

(** The segment's name is the namer's answer for the fixed argument
    ["only NewFixedSegmentNamer is supported"] (cut to 200 bytes): the
    method, the request and the metadata never reach the namer. *)
Theorem server_segment_name_from_namer {Header E : Type} (FromString : string -> Header)
  (sn : string -> string) (ctx : Context) (md : MD) (req : iface) (info : UnaryServerInfo)
  (handler : UnaryHandler Header E) (w : World Header E) :
  ctx_incoming ctx = Some md ->
  exists s,
    segs (final_state (NewGrpcXrayUnaryServerInterceptor FromString sn ctx req info handler w))
      !! length (segs w) = Some s /\
    seg_name s = truncate_name (sn "only NewFixedSegmentNamer is supported").
Proof.
  intros Hmd. rewrite (server_run FromString sn ctx md) by exact Hmd. cbn zeta.
  destruct (handler _ _ _ _) as [[resp err] e|p e|e]; cbn;
    (eexists; split; [apply lookup_last | reflexivity]).
Qed.

Lemma server_segment_name_from_namer_witness :
  exists s,
    segs (final_state (NewGrpcXrayUnaryServerInterceptor id_header
                         (fun a => if String.eqb a "/orders.Orders/Get" then "orders" else "svc")
                         sample_server_ctx INil sample_info partial_reply_handler empty_world))
      !! length (segs empty_world) = Some s /\
    seg_name s = truncate_name "svc".
Proof.
  apply (server_segment_name_from_namer id_header
           (fun a => if String.eqb a "/orders.Orders/Get" then "orders" else "svc")
           sample_server_ctx sample_md INil sample_info partial_reply_handler empty_world).
  reflexivity.
Defined.

(** The segment's lock is free while the handler runs (a handler may
    lock it) and at every exit: two handlers that agree on stores where
    the segment is unlocked give the same run, and the final segment is
    unlocked. *)
Theorem server_lock_released {Header E : Type} (FromString : string -> Header)
  (sn : string -> string) (ctx : Context) (md : MD) (req : iface) (info : UnaryServerInfo)
  (w : World Header E) :
  ctx_incoming ctx = Some md ->
  (forall h1 h2 : UnaryHandler Header E,
     (forall c r st e,
        (exists s, st !! length (segs w) = Some s /\ seg_locked s = false) ->
        h1 c r st e = h2 c r st e) ->
     NewGrpcXrayUnaryServerInterceptor FromString sn ctx req info h1 w
     = NewGrpcXrayUnaryServerInterceptor FromString sn ctx req info h2 w) /\
  (forall handler : UnaryHandler Header E,
     exists s,
       segs (final_state (NewGrpcXrayUnaryServerInterceptor FromString sn ctx req info handler w))
         !! length (segs w) = Some s /\ seg_locked s = false).
Proof.
  intros Hmd. split.
  - intros h1 h2 Hagree.
    rewrite !(server_run FromString sn ctx md) by exact Hmd. cbn zeta.
    rewrite Hagree; [reflexivity|].
    eexists; split; [apply lookup_last | reflexivity].
  - intros handler. rewrite (server_run FromString sn ctx md) by exact Hmd. cbn zeta.
    destruct (handler _ _ _ _) as [[resp err] e|p e|e]; cbn;
      (eexists; split; [apply lookup_last | reflexivity]).
Qed.

Lemma server_lock_released_witness :
  NewGrpcXrayUnaryServerInterceptor id_header svc_namer sample_server_ctx INil sample_info
    partial_reply_handler empty_world
  = NewGrpcXrayUnaryServerInterceptor id_header svc_namer sample_server_ctx INil sample_info
      (fun c r st e =>
         match st !! 0%nat with
         | Some s => if seg_locked s then Stuck e else partial_reply_handler c r st e
         | None => Ret (INil, None) e
         end) empty_world.
Proof.
  apply (proj1 (server_lock_released id_header svc_namer sample_server_ctx sample_md INil
                  sample_info empty_world eq_refl)).
  intros c r st e [s [Hs Hl]]. simpl in Hs. rewrite Hs, Hl. reflexivity.
Defined.

(** The handler receives the caller's request unchanged and the
    caller's context with only its segment replaced by the new one: the
    incoming metadata, the outgoing metadata and the peer are kept. *)
Theorem server_handler_sees_caller_context {Header E : Type} (FromString : string -> Header)
  (sn : string -> string) (ctx : Context) (md : MD) (req : iface) (info : UnaryServerInfo)
  (w : World Header E) :
  ctx_incoming ctx = Some md ->
  forall h1 h2 : UnaryHandler Header E,
    (forall st e,
       h1 (mkContext (Some (length (segs w))) (ctx_incoming ctx) (ctx_outgoing ctx) (ctx_peer ctx))
          req st e
       = h2 (mkContext (Some (length (segs w))) (ctx_incoming ctx) (ctx_outgoing ctx) (ctx_peer ctx))
          req st e) ->
    NewGrpcXrayUnaryServerInterceptor FromString sn ctx req info h1 w
    = NewGrpcXrayUnaryServerInterceptor FromString sn ctx req info h2 w.
Proof.
  intros Hmd h1 h2 Hagree.
  rewrite !(server_run FromString sn ctx md) by exact Hmd. cbn zeta.
  unfold with_segment. rewrite Hagree. reflexivity.
Qed.

Lemma server_handler_sees_caller_context_witness :
  NewGrpcXrayUnaryServerInterceptor id_header svc_namer sample_server_ctx (IVal "q") sample_info
    echo_handler empty_world
  = NewGrpcXrayUnaryServerInterceptor id_header svc_namer sample_server_ctx (IVal "q") sample_info
      (fun c r st e =>
         if bool_decide (ctx_peer c = Some "10.0.0.7:53412" /\ ctx_segment c = Some 0%nat)
         then Ret (r, None) e else Ret (INil, Some (Err "wrong context")) e)
      empty_world.
Proof.
  apply (server_handler_sees_caller_context id_header svc_namer sample_server_ctx sample_md
           (IVal "q") sample_info empty_world eq_refl).
  intros st e. reflexivity.
Defined.

(** ** NewGrpcXrayUnaryClientInterceptor *)

(** Under a segment, the invoker is called once, with the caller's
    method, request, reply and connection unchanged, and with the
    caller's context where the segment is the new subsegment and one
    pair is appended to the outgoing metadata: ["x-amzn-trace-id"] with
    the subsegment's downstream header (any pairs the caller had,
    a trace header among them, are kept before it).  The store it sees
    holds the subsegment unlocked, with method POST. *)
Theorem client_invoker_call {Header E : Type}
  (DownstreamHeaderString : list (Segment Header) -> nat -> string)
  (hostFromTarget : string -> E -> outcome E string) (ctx : Context) (parent : nat)
  (method : string) (req resp : iface) (cc : ClientConn) (w : World Header E)
  (host : string) (e1 : E) :
  ctx_segment ctx = Some parent ->
  hostFromTarget (Target cc) (ext w) = Ret host e1 ->
  let n := length (segs w) in
  let sub lk := mkSegment (truncate_name host) (Some parent) None lk
                  (mkRequestData "POST" "" "" "") 0 [] in
  let c := mkContext (Some n) (ctx_incoming ctx)
             (ctx_outgoing ctx ++ [("x-amzn-trace-id", DownstreamHeaderString (segs w ++ [sub true]) n)])
             (ctx_peer ctx) in
  forall inv1 inv2 : UnaryInvoker Header E,
    inv1 c method req resp cc (segs w ++ [sub false]) e1
    = inv2 c method req resp cc (segs w ++ [sub false]) e1 ->
    NewGrpcXrayUnaryClientInterceptor DownstreamHeaderString hostFromTarget ctx method req resp cc
      inv1 w
    = NewGrpcXrayUnaryClientInterceptor DownstreamHeaderString hostFromTarget ctx method req resp cc
      inv2 w.
Proof.
  intros Hseg Hhost n sub c inv1 inv2 Hagree.
  rewrite !(client_run DownstreamHeaderString hostFromTarget ctx parent method req resp cc _ w
              host e1 Hseg Hhost).
  cbn zeta. unfold AppendToOutgoingContext, with_segment, TraceIDHeaderKey, GrpcMethod.
  cbn [ctx_segment ctx_incoming ctx_outgoing ctx_peer]. unfold c, sub, n in Hagree.
  rewrite Hagree. reflexivity.
Qed.

Lemma client_invoker_call_witness :
  NewGrpcXrayUnaryClientInterceptor sample_downstream identity_host traced_client_ctx
    "/orders.Orders/Get" INil INil svc_conn ok_invoker traced_world
  = NewGrpcXrayUnaryClientInterceptor sample_downstream identity_host traced_client_ctx
      "/orders.Orders/Get" INil INil svc_conn
      (fun c m _ _ _ st e =>
         if bool_decide (ctx_outgoing c = [(TraceIDHeaderKey, sample_trace)] /\
                         ctx_segment c = Some 1%nat /\ m = "/orders.Orders/Get")
         then Ret None e else Ret (Some (Err "wrong call")) e)
      traced_world.
Proof.
  apply (client_invoker_call sample_downstream identity_host traced_client_ctx 0%nat
           "/orders.Orders/Get" INil INil svc_conn traced_world "svc:443" tt);
    reflexivity.
Defined.

(** Under a segment, when the invoker returns: the store keeps its
    segments and gains one subsegment of the context's segment, named
    after the host (cut to 200 bytes), whose request method is POST,
    closed once with the error the interceptor returns, and unlocked. *)
Theorem client_subsegment_on_return {Header E : Type}
  (DownstreamHeaderString : list (Segment Header) -> nat -> string)
  (hostFromTarget : string -> E -> outcome E string) (ctx : Context) (parent : nat)
  (method : string) (req resp : iface) (cc : ClientConn) (invoker : UnaryInvoker Header E)
  (w : World Header E) (host : string) (e1 : E) (err : option error) (w' : World Header E) :
  ctx_segment ctx = Some parent ->
  hostFromTarget (Target cc) (ext w) = Ret host e1 ->
  NewGrpcXrayUnaryClientInterceptor DownstreamHeaderString hostFromTarget ctx method req resp cc
    invoker w = Ret err w' ->
  exists s,
    segs w' = segs w ++ [s] /\ seg_parent s = Some parent /\ seg_name s = truncate_name host /\
    seg_request s = mkRequestData "POST" "" "" "" /\ seg_closes s = [err] /\ seg_locked s = false.
Proof.
  intros Hseg Hhost.
  rewrite (client_run DownstreamHeaderString hostFromTarget ctx parent method req resp cc invoker w
             host e1 Hseg Hhost). cbn zeta.
  destruct (invoker _ _ _ _ _ _ _) as [err0 e|p e|e]; intros H; try discriminate.
  injection H as <- <-. eexists; repeat split.
Qed.

Lemma client_subsegment_on_return_witness :
  exists s,
    segs traced_world ++
      [mkSegment "svc:443" (Some 0%nat) None false (mkRequestData "POST" "" "" "") 400
         [Some (Err "unavailable")]]
    = segs traced_world ++ [s] /\ seg_parent s = Some 0%nat /\ seg_name s = truncate_name "svc:443" /\
    seg_request s = mkRequestData "POST" "" "" "" /\ seg_closes s = [Some (Err "unavailable")] /\
    seg_locked s = false.
Proof.
  apply (client_subsegment_on_return sample_downstream identity_host traced_client_ctx 0%nat
           "/orders.Orders/Get" INil INil svc_conn failing_invoker traced_world "svc:443" tt
           (Some (Err "unavailable"))
           (mkWorld (segs traced_world ++
              [mkSegment "svc:443" (Some 0%nat) None false (mkRequestData "POST" "" "" "") 400
                 [Some (Err "unavailable")]]) tt));
    [reflexivity | reflexivity | vm_compute; reflexivity].
Defined.

(** Under a segment, a panic of the invoker goes through the
    interceptor unchanged, after the subsegment is closed once with the
    error carrying the panic's text; no response status is written and
    the subsegment is unlocked.  The hypothesis is about the one call
    the interceptor makes (the context with the subsegment and the
    appended trace header, the store holding the subsegment); the
    invoker may panic only on some calls. *)
Theorem client_invoker_panic_propagates {Header E : Type}
  (DownstreamHeaderString : list (Segment Header) -> nat -> string)
  (hostFromTarget : string -> E -> outcome E string) (ctx : Context) (parent : nat)
  (method : string) (req resp : iface) (cc : ClientConn) (invoker : UnaryInvoker Header E)
  (w : World Header E) (host : string) (e1 : E) (p : panic_value) (e2 : E) :
  ctx_segment ctx = Some parent ->
  hostFromTarget (Target cc) (ext w) = Ret host e1 ->
  invoker
    (mkContext (Some (length (segs w))) (ctx_incoming ctx)
       (ctx_outgoing ctx ++
          [("x-amzn-trace-id",
            DownstreamHeaderString
              (segs w ++ [mkSegment (truncate_name host) (Some parent) None true
                            (mkRequestData "POST" "" "" "") 0 []]) (length (segs w)))])
       (ctx_peer ctx))
    method req resp cc
    (segs w ++ [mkSegment (truncate_name host) (Some parent) None false
                  (mkRequestData "POST" "" "" "") 0 []]) e1
  = Panic p e2 ->
  exists s,
    NewGrpcXrayUnaryClientInterceptor DownstreamHeaderString hostFromTarget ctx method req resp cc
      invoker w = Panic p (mkWorld (segs w ++ [s]) e2) /\
    seg_parent s = Some parent /\ seg_closes s = [Some (Err (panic_text p))] /\
    seg_status s = 0 /\ seg_locked s = false.
Proof.
  intros Hseg Hhost Hinv.
  rewrite (client_run DownstreamHeaderString hostFromTarget ctx parent method req resp cc invoker w
             host e1 Hseg Hhost). cbn zeta.
  unfold AppendToOutgoingContext, with_segment, TraceIDHeaderKey, GrpcMethod.
  cbn [ctx_segment ctx_incoming ctx_outgoing ctx_peer]. rewrite Hinv.
  eexists; split; [reflexivity | repeat split].
Qed.

Lemma client_invoker_panic_propagates_witness :
  exists s,
    NewGrpcXrayUnaryClientInterceptor sample_downstream identity_host traced_client_ctx
      "/orders.Orders/Get" INil INil svc_conn metadata_gated_panic_invoker traced_world
    = Panic (PanicMsg "connection reset") (mkWorld (segs traced_world ++ [s]) tt) /\
    seg_parent s = Some 0%nat /\ seg_closes s = [Some (Err "connection reset")] /\
    seg_status s = 0 /\ seg_locked s = false.
Proof.
  apply (client_invoker_panic_propagates sample_downstream identity_host traced_client_ctx 0%nat
           "/orders.Orders/Get" INil INil svc_conn metadata_gated_panic_invoker traced_world
           "svc:443" tt (PanicMsg "connection reset") tt);
    reflexivity.
Defined.

(** The client interceptor panics or blocks only when [hostFromTarget]
    (on the connection's target) or the invoker (on the caller's
    method, request and reply) does.  A panic of [hostFromTarget], and
    of the invoker under a segment, comes through unchanged; with no
    segment in the context, an invoker panic comes out as a nil pointer
    dereference raised by [xray.Capture]'s recover handler. *)
Theorem client_panics_only_from_wrapped_code {Header E : Type}
  (DownstreamHeaderString : list (Segment Header) -> nat -> string)
  (hostFromTarget : string -> E -> outcome E string) (ctx : Context)
  (method : string) (req resp : iface) (cc : ClientConn) (invoker : UnaryInvoker Header E)
  (w : World Header E) :
  (forall p w',
     NewGrpcXrayUnaryClientInterceptor DownstreamHeaderString hostFromTarget ctx method req resp cc
       invoker w = Panic p w' ->
     (exists e, hostFromTarget (Target cc) (ext w) = Panic p e) \/
     (exists c st e0 p0 e, invoker c method req resp cc st e0 = Panic p0 e /\
        p = match ctx_segment ctx with Some _ => p0 | None => nil_deref end)) /\
  (forall w',
     NewGrpcXrayUnaryClientInterceptor DownstreamHeaderString hostFromTarget ctx method req resp cc
       invoker w = Stuck w' ->
     (exists e, hostFromTarget (Target cc) (ext w) = Stuck e) \/
     (exists c st e0 e, invoker c method req resp cc st e0 = Stuck e)).
Proof.
  destruct (hostFromTarget (Target cc) (ext w)) as [host e1|p0 e0|e0] eqn:Hhost.
  - destruct (ctx_segment ctx) as [parent|] eqn:Hseg.
    + rewrite (client_run DownstreamHeaderString hostFromTarget ctx parent method req resp cc invoker
                 w host e1 Hseg Hhost). cbn zeta.
      destruct (invoker _ _ _ _ _ _ _) as [err e|p e|e] eqn:Hi;
        split; intros * H; try discriminate; injection H; intros; subst; right;
        eauto 7.
    + unfold NewGrpcXrayUnaryClientInterceptor. unfold_monad. cbn. rewrite Hhost. cbn.
      rewrite Hseg. cbn.
      destruct (invoker _ _ _ _ _ _ _) as [err e|p e|e] eqn:Hi;
        split; intros * H; try discriminate; injection H; intros; subst; right;
        eauto 7.
  - unfold NewGrpcXrayUnaryClientInterceptor. unfold mbind, M_bind, call_ext. rewrite Hhost.
    split; intros * H; try discriminate; injection H; intros; subst; left; eauto.
  - unfold NewGrpcXrayUnaryClientInterceptor. unfold mbind, M_bind, call_ext. rewrite Hhost.
    split; intros * H; try discriminate; left; eauto.
Qed.
